(** * Server-chirp: a shallow embedding of the Express/Mongoose handlers

    The two Mongoose collections are finite maps from [_id] to the stored
    fields, every route handler is a function from the store to a new store
    and an HTTP response, and the values that come from outside the program
    (generated ids, the clock, bcrypt, jsonwebtoken, path.extname) are
    explicit inputs. Requests are handled one after the other. The
    [io.emit] broadcasts read the store and never write it; they are left
    out. *)

From Stdlib Require Import Ascii.
From stdpp Require Import gmap strings list sorting pretty.

(** ** JavaScript string and array primitives used by the handlers

    A string is a sequence of code units, one [ascii] each. *)
Module JS.

(** [s.split(sep)] for a one-character separator: the pieces between the
    separators, empty pieces included; [''.split(' ')] is [['']]. *)
Fixpoint split (sep : ascii) (s : string) : list string :=
  match s with
  | EmptyString => [EmptyString]
  | String c s' =>
      if decide (c = sep) then EmptyString :: split sep s'
      else match split sep s' with
           | w :: ws => String c w :: ws
           | [] => [String c EmptyString]
           end
  end.

(** [s[0]]: [undefined] (here [None]) on the empty string. *)
Definition index0 (s : string) : option string :=
  match s with
  | EmptyString => None
  | String c _ => Some (String c EmptyString)
  end.

(** [a[1]] on an array. *)
Definition index1 {A} (a : list A) : option A := a !! 1.

(** [a.join('')]: [undefined] elements are written as the empty string. *)
Fixpoint join (a : list (option string)) : string :=
  match a with
  | [] => EmptyString
  | x :: a' => default EmptyString x +:+ join a'
  end.

(** [s.substring(from, to)] for [from <= to]. *)
Definition substring (from to : nat) (s : string) : string :=
  String.substring from (to - from) s.

(** [toUpperCase] on one code unit. Only the ASCII letters are mapped;
    the Unicode case mapping of the other code units is not part of this
    development, and statements about the value of an upper-cased string
    are made for ASCII strings. *)
Definition upper (c : ascii) : ascii :=
  let n := nat_of_ascii c in
  if (97 <=? n) && (n <=? 122) then ascii_of_nat (n - 32) else c.

Fixpoint toUpperCase (s : string) : string :=
  match s with
  | EmptyString => EmptyString
  | String c s' => String (upper c) (toUpperCase s')
  end.

(** [!s] for a value that is a string or [undefined]. *)
Definition falsy (s : option string) : bool :=
  match s with
  | None => true
  | Some EmptyString => true
  | Some _ => false
  end.

(** [a.indexOf(x)]; [None] stands for [-1]. On a Mongoose array of ids the
    elements are compared by value. *)
Fixpoint indexOf `{EqDecision A} (a : list A) (x : A) : option nat :=
  match a with
  | [] => None
  | y :: a' => if decide (y = x) then Some 0 else S <$> indexOf a' x
  end.

(** [a.includes(x)], by value as well. *)
Definition includes `{EqDecision A} (a : list A) (x : A) : bool :=
  bool_decide (x ∈ a).

(** [a.push(x)]. *)
Definition push {A} (a : list A) (x : A) : list A := a ++ [x].

(** [a.splice(i, 1)]: the array without its element at index [i]. *)
Definition splice1 {A} (a : list A) (i : nat) : list A := delete i a.

(** [x || 0] on a number. *)
Definition or0 (x : Z) : Z := if decide (x = 0%Z) then 0%Z else x.

End JS.

(** Every code unit is an ASCII character. *)
Definition ascii_only (s : string) : Prop :=
  Forall (λ c, nat_of_ascii c < 128) (String.list_ascii_of_string s).

(** ** Signup: the avatar label (line 114) *)

Definition avatar (name : string) : string :=
  JS.toUpperCase
    (JS.substring 0 2 (JS.join (JS.index0 <$> JS.split " "%char name))).

(** ** Data model (the two schemas, lines 30-62) *)

(** An [ObjectId]; only equality of ids is ever used. *)
Abbreviation ObjectId := N (only parsing).

(** A [Date], in milliseconds. *)
Abbreviation Date := Z (only parsing).

(** What [res.json] sends. *)
#[warnings="-register-all"]
Inductive json :=
| JNull
| JString (s : string)
| JNumber (z : Z)
| JObjectId (i : ObjectId)
| JDate (d : Date)
| JArray (a : list json)
| JObject (fields : list (string * json)).

(** The keys of an object, in order. *)
Definition json_keys (j : json) : list string :=
  match j with
  | JObject fields => fields.*1
  | _ => []
  end.

Module User.
Record t := mk {
  username : string;
  password : string;
  name : string;
  avatar : string;
  bio : string;
  following : list ObjectId;
  followers : Z
}.
Definition set_following (l : list ObjectId) (u : t) : t :=
  mk (username u) (password u) (name u) (avatar u) (bio u) l (followers u).
Definition set_followers (n : Z) (u : t) : t :=
  mk (username u) (password u) (name u) (avatar u) (bio u) (following u) n.
End User.

Module Comment.
Record t := mk {
  user_id : ObjectId;
  user_name : string;
  user_username : string;
  user_avatar : string;
  content : string;
  createdAt : Date
}.
End Comment.

Module Tweet.
Record t := mk {
  userId : ObjectId;
  author : string;
  handle : string;
  avatar : string;
  content : string;
  image : option string;
  likes : list ObjectId;
  retweets : Z;
  comments : list Comment.t;
  createdAt : Date
}.
Definition set_likes (l : list ObjectId) (d : t) : t :=
  mk (userId d) (author d) (handle d) (avatar d) (content d) (image d) l
     (retweets d) (comments d) (createdAt d).
Definition set_comments (l : list Comment.t) (d : t) : t :=
  mk (userId d) (author d) (handle d) (avatar d) (content d) (image d)
     (likes d) (retweets d) l (createdAt d).
End Tweet.

(** The database: a collection maps the [_id] of each document to its
    other fields, so a loaded document is an id together with a record. *)
Record state := State {
  users : gmap ObjectId User.t;
  tweets : gmap ObjectId Tweet.t
}.

Definition empty_db : state := State ∅ ∅.

(** What the handling of one request takes from outside the program: the
    [_id] that [new Model(...)] generates, [Date.now()] when a document or a
    comment is built and when multer names an uploaded file, and the library
    calls, whose results depend on salts, on the secret and on the time:
    [bcrypt.hash(password, 10)], [bcrypt.compare], [jwt.sign({ userId }, ...)],
    [jwt.verify(token, ...)] followed by [.userId] ([None] when it throws),
    and [path.extname]. It also takes from Mongoose the cast of a string to
    an [ObjectId] ([None] when the string is not a well-formed id and the
    query rejects with a CastError) and the version key [__v] that Mongoose
    keeps in every user document, which no handler reads or writes. *)
Record env := Env {
  gen_id : ObjectId;
  date_now : Date;
  upload_now : Date;
  bcrypt_hash : string → string;
  bcrypt_compare : string → string → bool;
  jwt_sign : ObjectId → string;
  jwt_verify : string → option ObjectId;
  path_extname : string → string;
  cast_ObjectId : string → option ObjectId;
  user_version : ObjectId → Z
}.

Record response := Response {
  status : nat;
  body : json
}.

Definition error (msg : string) : json := JObject [("error", JString msg)].

(** *** Serialisation of documents *)

Definition ids_toJSON (l : list ObjectId) : json := JArray (JObjectId <$> l).

(** [res.json(user)] of a user document: its [_id], the seven paths of
    [userSchema] and the version key. *)
Definition User_toJSON (e : env) (i : ObjectId) (u : User.t) : json :=
  JObject [("_id", JObjectId i);
           ("username", JString (User.username u));
           ("password", JString (User.password u));
           ("name", JString (User.name u));
           ("avatar", JString (User.avatar u));
           ("bio", JString (User.bio u));
           ("following", ids_toJSON (User.following u));
           ("followers", JNumber (User.followers u));
           ("__v", JNumber (user_version e i))].

Definition Comment_toJSON (c : Comment.t) : json :=
  JObject [("user", JObject [("_id", JObjectId (Comment.user_id c));
                             ("name", JString (Comment.user_name c));
                             ("username", JString (Comment.user_username c));
                             ("avatar", JString (Comment.user_avatar c))]);
           ("content", JString (Comment.content c));
           ("createdAt", JDate (Comment.createdAt c))].

Definition Tweet_toJSON (i : ObjectId) (t : Tweet.t) : json :=
  JObject [("_id", JObjectId i);
           ("userId", JObjectId (Tweet.userId t));
           ("author", JString (Tweet.author t));
           ("handle", JString (Tweet.handle t));
           ("avatar", JString (Tweet.avatar t));
           ("content", JString (Tweet.content t));
           ("image", from_option JString JNull (Tweet.image t));
           ("likes", ids_toJSON (Tweet.likes t));
           ("retweets", JNumber (Tweet.retweets t));
           ("comments", JArray (Comment_toJSON <$> Tweet.comments t));
           ("createdAt", JDate (Tweet.createdAt t))].

(** ** Mongoose operations *)

(** [required: true] on a String path rejects the empty string (and a
    missing value, which the record types exclude). *)
Definition required (s : string) : bool := bool_decide (s ≠ "").

Definition User_validate (u : User.t) : bool :=
  required (User.username u) && required (User.password u)
  && required (User.name u).

Definition Tweet_validate (t : Tweet.t) : bool :=
  required (Tweet.author t) && required (Tweet.handle t)
  && required (Tweet.avatar t) && required (Tweet.content t).

(** [User.findOne({ username })]. *)
Definition User_findOne (us : gmap ObjectId User.t) (username : string)
  : option (ObjectId * User.t) :=
  head (filter (λ d, User.username d.2 = username) (map_to_list us)).

(** [newUser.save()] of a new document: validation, then an insert that the
    unique indexes on [_id] and [username] can refuse. [None] is a rejected
    promise. *)
Definition User_save_new (i : ObjectId) (u : User.t)
    (us : gmap ObjectId User.t) : option (gmap ObjectId User.t) :=
  if User_validate u then
    match us !! i, User_findOne us (User.username u) with
    | None, None => Some (<[i := u]> us)
    | _, _ => None
    end
  else None.

Definition Tweet_save_new (i : ObjectId) (t : Tweet.t)
    (ts : gmap ObjectId Tweet.t) : option (gmap ObjectId Tweet.t) :=
  if Tweet_validate t then
    match ts !! i with
    | None => Some (<[i := t]> ts)
    | Some _ => None
    end
  else None.

(** [doc.save()] of a loaded document writes the modified paths only, to the
    stored document with the same [_id]. These are the writes of a save
    that goes through; the handlers named [_io] below also cover the save
    that the store rejects. *)
Definition User_save_following (i : ObjectId) (doc : User.t) (s : state)
  : state :=
  State (alter (User.set_following (User.following doc)) i (users s))
        (tweets s).

Definition User_save_followers (i : ObjectId) (doc : User.t) (s : state)
  : state :=
  State (alter (User.set_followers (User.followers doc)) i (users s))
        (tweets s).

Definition Tweet_save_likes (i : ObjectId) (doc : Tweet.t) (s : state)
  : state :=
  State (users s) (alter (Tweet.set_likes (Tweet.likes doc)) i (tweets s)).

Definition Tweet_save_comments (i : ObjectId) (doc : Tweet.t) (s : state)
  : state :=
  State (users s)
        (alter (Tweet.set_comments (Tweet.comments doc)) i (tweets s)).

(** [.sort({ createdAt: -1 })]: newest first. The order among documents
    with equal [createdAt] is whatever the sort leaves. *)
Definition newer_first (a b : ObjectId * Tweet.t) : Prop :=
  (Tweet.createdAt b.2 ≤ Tweet.createdAt a.2)%Z.

Global Instance newer_first_dec : RelDecision newer_first.
Proof. intros a b. unfold newer_first. apply _. Defined.

(** [Tweet.find(filter).sort({ createdAt: -1 })]. *)
Definition Tweet_find_sorted (P : ObjectId * Tweet.t → Prop)
    `{∀ d, Decision (P d)} (ts : gmap ObjectId Tweet.t)
  : list (ObjectId * Tweet.t) :=
  merge_sort newer_first (filter P (map_to_list ts)).

Definition tweets_toJSON (l : list (ObjectId * Tweet.t)) : json :=
  JArray ((λ d, Tweet_toJSON d.1 d.2) <$> l).

(** ** The handlers *)

Definition server_error (s : state) : state * response :=
  (s, Response 500 (error "Server error")).

(** Line 74: [req.headers.authorization?.split(' ')[1]]. *)
Definition bearer (authorization : option string) : option string :=
  authorization ≫= λ h, JS.index1 (JS.split " "%char h).

(** Lines 73-85. [next] receives [req.user]: its [_id] and its fields. *)
Definition authenticate (e : env) (s : state) (authorization : option string)
    (next : ObjectId → User.t → state * response) : state * response :=
  let token := bearer authorization in
  if JS.falsy token then (s, Response 401 (error "Unauthorized"))
  else
    match jwt_verify e (default "" token) with
    | None => (s, Response 401 (error "Invalid token"))
    | Some userId =>
        match users s !! userId with
        | None => (s, Response 401 (error "User not found"))
        | Some user => next userId user
        end
    end.

(** Lines 92-94: the name multer gives an uploaded file. *)
Definition filename (e : env) (originalname : string) : string :=
  pretty (upload_now e) +:+ path_extname e originalname.

(** The [user] object of the signup and login responses. *)
Definition session_toJSON (e : env) (i : ObjectId) (u : User.t) : json :=
  JObject [("_id", JObjectId i);
           ("username", JString (User.username u));
           ("name", JString (User.name u));
           ("avatar", JString (User.avatar u));
           ("token", JString (jwt_sign e i))].

(** Lines 101-132. *)
Definition signup (e : env) (s : state)
    (username password name : option string) : state * response :=
  if JS.falsy username || JS.falsy password || JS.falsy name then
    (s, Response 400 (error "Please provide all fields"))
  else
    let username := default "" username in
    let password := default "" password in
    let name := default "" name in
    match User_findOne (users s) username with
    | Some _ => (s, Response 400 (error "Username already taken"))
    | None =>
        let hashedPassword := bcrypt_hash e password in
        let newUser :=
          User.mk username hashedPassword name (avatar name) "" [] 0 in
        match User_save_new (gen_id e) newUser (users s) with
        | None => server_error s
        | Some us =>
            (State us (tweets s),
             Response 200
               (JObject [("user", session_toJSON e (gen_id e) newUser);
                         ("message", JString "User created")]))
        end
    end.

(** Lines 135-162. *)
Definition login (e : env) (s : state) (username password : string)
  : state * response :=
  match User_findOne (users s) username with
  | None => (s, Response 401 (error "Invalid credentials"))
  | Some (i, user) =>
      if bcrypt_compare e password (User.password user) then
        (s, Response 200
              (JObject [("user", session_toJSON e i user);
                        ("message", JString "Login successful")]))
      else (s, Response 401 (error "Invalid credentials"))
  end.

(** Lines 165-172. *)
Definition listTweets (s : state) : state * response :=
  (s, Response 200
        (tweets_toJSON (Tweet_find_sorted (λ _, True) (tweets s)))).

(** Lines 323-330. *)
Definition listUserTweets (s : state) (id : ObjectId) : state * response :=
  (s, Response 200
        (tweets_toJSON
           (Tweet_find_sorted (λ d, Tweet.userId d.2 = id) (tweets s)))).

(** Lines 175-198. [file] is the original name of the uploaded image. *)
Definition createTweet (e : env) (s : state) (authorization : option string)
    (content : option string) (file : option string) : state * response :=
  authenticate e s authorization (λ userId user,
    if JS.falsy content then
      (s, Response 400 (error "Content is required"))
    else
      let content := default "" content in
      let image := (λ f, "/uploads/" +:+ filename e f) <$> file in
      let newTweet :=
        Tweet.mk userId (User.name user) ("@" +:+ User.username user)
                 (User.avatar user) content image [] 0 [] (date_now e) in
      match Tweet_save_new (gen_id e) newTweet (tweets s) with
      | None => server_error s
      | Some ts =>
          (State (users s) ts,
           Response 201 (Tweet_toJSON (gen_id e) newTweet))
      end).

(** Lines 209-215: the new [likes] array. *)
Definition toggle (likes : list ObjectId) (userId : ObjectId)
  : list ObjectId :=
  match JS.indexOf likes userId with
  | None => JS.push likes userId
  | Some likeIndex => JS.splice1 likes likeIndex
  end.

(** Lines 201-223. *)
Definition toggleLike (e : env) (s : state) (authorization : option string)
    (id : ObjectId) : state * response :=
  authenticate e s authorization (λ userId _,
    match tweets s !! id with
    | None => (s, Response 404 (error "Tweet not found"))
    | Some tweet =>
        let tweet :=
          Tweet.set_likes (toggle (Tweet.likes tweet) userId) tweet in
        (Tweet_save_likes id tweet s, Response 200 (Tweet_toJSON id tweet))
    end).

(** Lines 226-258. [currentUser] and [userToFollow] are two loaded copies,
    of the same stored document when a user follows themselves. *)
Definition follow (e : env) (s : state) (authorization : option string)
    (id : ObjectId) : state * response :=
  authenticate e s authorization (λ me _,
    match users s !! id with
    | None => (s, Response 404 (error "User not found"))
    | Some userToFollow =>
        match users s !! me with
        | None => server_error s
        | Some currentUser =>
            if JS.includes (User.following currentUser) id then
              (s, Response 400 (error "Already following this user"))
            else
              let currentUser :=
                User.set_following
                  (JS.push (User.following currentUser) id) currentUser in
              let userToFollow :=
                User.set_followers
                  (JS.or0 (User.followers userToFollow) + 1) userToFollow in
              let s := User_save_following me currentUser s in
              let s := User_save_followers id userToFollow s in
              (s, Response 200
                    (JObject
                       [("following", ids_toJSON (User.following currentUser));
                        ("followedUsername",
                         JString (User.username userToFollow))]))
        end
    end).

(** Lines 261-294. *)
Definition unfollow (e : env) (s : state) (authorization : option string)
    (id : ObjectId) : state * response :=
  authenticate e s authorization (λ me _,
    match users s !! id with
    | None => (s, Response 404 (error "User not found"))
    | Some userToUnfollow =>
        match users s !! me with
        | None => server_error s
        | Some currentUser =>
            match JS.indexOf (User.following currentUser) id with
            | None => (s, Response 400 (error "Not following this user"))
            | Some index =>
                let currentUser :=
                  User.set_following
                    (JS.splice1 (User.following currentUser) index)
                    currentUser in
                let userToUnfollow :=
                  User.set_followers
                    (0 `max` (JS.or0 (User.followers userToUnfollow) - 1))
                    userToUnfollow in
                let s := User_save_following me currentUser s in
                let s := User_save_followers id userToUnfollow s in
                (s, Response 200
                      (JObject
                         [("following",
                           ids_toJSON (User.following currentUser));
                          ("unfollowedUsername",
                           JString (User.username userToUnfollow))]))
            end
        end
    end).

(** [populate('following', 'username name avatar')] on one id: the
    selected fields of the user it refers to. *)
Definition populate (s : state) (i : ObjectId) : option json :=
  (λ u, JObject [("_id", JObjectId i);
                 ("username", JString (User.username u));
                 ("name", JString (User.name u));
                 ("avatar", JString (User.avatar u))]) <$> users s !! i.

(** Lines 297-307. *)
Definition getFollowing (s : state) (id : ObjectId) : state * response :=
  match users s !! id with
  | None => (s, Response 404 (error "User not found"))
  | Some user =>
      (s, Response 200 (JArray (omap (populate s) (User.following user))))
  end.

(** Lines 310-320, from the [:id] of the URL as it is written: [findById]
    casts it, and the query of an id that is not well formed rejects. *)
Definition getProfile (e : env) (s : state) (id : string)
  : state * response :=
  match cast_ObjectId e id with
  | None => server_error s
  | Some _id =>
      match users s !! _id with
      | None => (s, Response 404 (error "User not found"))
      | Some user => (s, Response 200 (User_toJSON e _id user))
      end
  end.

(** Lines 333-366. *)
Definition addComment (e : env) (s : state) (authorization : option string)
    (id : ObjectId) (content : option string) : state * response :=
  authenticate e s authorization (λ userId user,
    if JS.falsy content then
      (s, Response 400 (error "Content is required"))
    else
      let content := default "" content in
      match tweets s !! id with
      | None => (s, Response 404 (error "Tweet not found"))
      | Some tweet =>
          let newComment :=
            Comment.mk userId (User.name user) (User.username user)
                       (User.avatar user) content (date_now e) in
          let tweet :=
            Tweet.set_comments (JS.push (Tweet.comments tweet) newComment)
                               tweet in
          let s := Tweet_save_comments id tweet s in
          match tweets s !! id with
          | None => (s, Response 200 JNull)
          | Some updatedTweet =>
              (s, Response 200 (Tweet_toJSON id updatedTweet))
          end
      end).

(** ** The server as a transition system *)

(** A request to one of the eleven routes. The [:id] of a route is a
    well-formed id, but for GetProfile, which takes it as it is written;
    the body of a login carries two strings. *)
Inductive request :=
| Signup (username password name : option string)
| Login (username password : string)
| ListTweets
| CreateTweet (authorization content file : option string)
| ToggleLike (authorization : option string) (id : ObjectId)
| Follow (authorization : option string) (id : ObjectId)
| Unfollow (authorization : option string) (id : ObjectId)
| GetFollowing (id : ObjectId)
| GetProfile (id : string)
| ListUserTweets (id : ObjectId)
| AddComment (authorization : option string) (id : ObjectId)
    (content : option string).

Definition serve (e : env) (s : state) (r : request) : state * response :=
  match r with
  | Signup username password name => signup e s username password name
  | Login username password => login e s username password
  | ListTweets => listTweets s
  | CreateTweet authorization content file =>
      createTweet e s authorization content file
  | ToggleLike authorization id => toggleLike e s authorization id
  | Follow authorization id => follow e s authorization id
  | Unfollow authorization id => unfollow e s authorization id
  | GetFollowing id => getFollowing s id
  | GetProfile id => getProfile e s id
  | ListUserTweets id => listUserTweets s id
  | AddComment authorization id content =>
      addComment e s authorization id content
  end.

(** The database after a sequence of requests handled one after the other. *)
Fixpoint run (s : state) (l : list (env * request)) : state :=
  match l with
  | [] => s
  | (e, r) :: l' => run (serve e s r).1 l'
  end.

(** The databases the server reaches from the empty one by requests handled
    one after the other, every save going through. *)
Definition reachable (s : state) : Prop := ∃ l, s = run empty_db l.


(** The middleware lets the request through as the stored user [userId]. *)
Definition signed_in (e : env) (s : state) (authorization : option string)
    (userId : ObjectId) : Prop :=
  ∃ token, bearer authorization = Some token ∧ token ≠ "" ∧
           jwt_verify e token = Some userId ∧ is_Some (users s !! userId).

(** The fields of a tweet other than [likes] and [comments] are the same. *)
Definition same_post (t t' : Tweet.t) : Prop :=
  Tweet.userId t' = Tweet.userId t ∧ Tweet.author t' = Tweet.author t ∧
  Tweet.handle t' = Tweet.handle t ∧ Tweet.avatar t' = Tweet.avatar t ∧
  Tweet.content t' = Tweet.content t ∧ Tweet.image t' = Tweet.image t ∧
  Tweet.retweets t' = Tweet.retweets t ∧
  Tweet.createdAt t' = Tweet.createdAt t.

(** The fields of a user other than [following] and [followers] are the
    same. *)
Definition same_account (u u' : User.t) : Prop :=
  User.username u' = User.username u ∧ User.password u' = User.password u ∧
  User.name u' = User.name u ∧ User.avatar u' = User.avatar u ∧
  User.bio u' = User.bio u.

(** ** The avatar label as the specification words it

    The tokens of a name are its maximal runs of characters that are not
    separators; the label is made of the first character of each token,
    concatenated, upper-cased and cut to two characters. *)

Fixpoint tokens_from (is_sep : ascii → bool) (cur s : string) : list string :=
  match s with
  | EmptyString => if decide (cur = "") then [] else [cur]
  | String c s' =>
      if is_sep c then
        if decide (cur = "") then tokens_from is_sep "" s'
        else cur :: tokens_from is_sep "" s'
      else tokens_from is_sep (cur +:+ String c "") s'
  end.

Definition tokens (is_sep : ascii → bool) (s : string) : list string :=
  tokens_from is_sep "" s.

Definition first_character (w : string) : string :=
  match w with
  | EmptyString => ""
  | String c _ => String c ""
  end.

Definition initials (is_sep : ascii → bool) (name : string) : string :=
  String.substring 0 2
    (JS.toUpperCase
       (String.concat "" (first_character <$> tokens is_sep name))).

(** The separator of line 114, and the white space characters. *)
Definition is_blank (c : ascii) : bool := bool_decide (c = " "%char).
Definition is_whitespace (c : ascii) : bool := Ascii.is_space c.

(** The keys of the projection [username name avatar], with the [_id] that
    Mongoose always adds. *)
Definition profile_keys : list string := ["_id"; "username"; "name"; "avatar"].

(** ** A small run of the server, used to exercise the statements below *)

Definition demo_verify (token : string) : option ObjectId :=
  if decide (token = "ann") then Some 1%N
  else if decide (token = "bob") then Some 2%N
  else if decide (token = "sp") then Some 3%N
  else None.

Definition demo_sign (i : ObjectId) : string :=
  if decide (i = 1%N) then "ann"
  else if decide (i = 2%N) then "bob" else "sp".

(** The ids are written as decimal numbers of one digit. *)
Definition demo_cast (id : string) : option ObjectId :=
  match id with
  | String c EmptyString => N.of_nat <$> Ascii.is_nat c
  | _ => None
  end.

Definition demo_env (i : ObjectId) (now : Date) : env :=
  Env i now now (λ p, "$2a$10$" +:+ p)
      (λ p h, bool_decide (h = "$2a$10$" +:+ p))
      demo_sign demo_verify (λ _, ".png") demo_cast (λ _, 0%Z).

(** Ann, Bob and a user whose name is one space sign up; Ann posts. *)
Definition demo_trace : list (env * request) :=
  [(demo_env 1 1000, Signup (Some "ann") (Some "pw") (Some "Ann Lee"));
   (demo_env 2 2000, Signup (Some "bob") (Some "pw") (Some "Bob"));
   (demo_env 3 3000, Signup (Some "sp") (Some "pw") (Some " "));
   (demo_env 10 4000, CreateTweet (Some "Bearer ann") (Some "hello") None)].

Definition demo_db : state := run empty_db demo_trace.

(** What that run stores for Ann, for Bob and for the post. *)
Definition ann : User.t := User.mk "ann" "$2a$10$pw" "Ann Lee" "AL" "" [] 0.
Definition bob : User.t := User.mk "bob" "$2a$10$pw" "Bob" "B" "" [] 0.
Definition hello : Tweet.t :=
  Tweet.mk 1 "Ann Lee" "@ann" "AL" "hello" None [] 0 [] 4000.

(** A name whose two words are separated by a tab. *)
Definition tab_name : string := String "A" (String "009" (String "B" ""))%char.

(** ** Saves that the store rejects

    Every [await doc.save()], and the [findById] that reads a tweet again
    after a comment, can reject (the store is down, the write conflicts);
    the [catch] of the handler then answers 500, and the writes made before
    stay. The handlers above are the handlers when these calls go through.
    The handlers below take the outcome of each of these calls of one
    request. *)
Record outcome := Outcome {
  save1_ok : bool;
  save2_ok : bool;
  reread_ok : bool
}.

Definition all_ok : outcome := Outcome true true true.

(** The two saves of the request go through. *)
Definition saves_ok (o : outcome) : Prop :=
  save1_ok o = true ∧ save2_ok o = true.

(** [await doc.save()]: what the save gives, or [None] when it rejects. *)
Definition save {A} (ok : bool) (saved : option A) : option A :=
  if ok then saved else None.

(** Lines 101-132. *)
Definition signup_io (o : outcome) (e : env) (s : state)
    (username password name : option string) : state * response :=
  if JS.falsy username || JS.falsy password || JS.falsy name then
    (s, Response 400 (error "Please provide all fields"))
  else
    let username := default "" username in
    let password := default "" password in
    let name := default "" name in
    match User_findOne (users s) username with
    | Some _ => (s, Response 400 (error "Username already taken"))
    | None =>
        let hashedPassword := bcrypt_hash e password in
        let newUser :=
          User.mk username hashedPassword name (avatar name) "" [] 0 in
        match save (save1_ok o)
                (User_save_new (gen_id e) newUser (users s)) with
        | None => server_error s
        | Some us =>
            (State us (tweets s),
             Response 200
               (JObject [("user", session_toJSON e (gen_id e) newUser);
                         ("message", JString "User created")]))
        end
    end.

(** Lines 175-198. *)
Definition createTweet_io (o : outcome) (e : env) (s : state)
    (authorization : option string) (content : option string)
    (file : option string) : state * response :=
  authenticate e s authorization (λ userId user,
    if JS.falsy content then
      (s, Response 400 (error "Content is required"))
    else
      let content := default "" content in
      let image := (λ f, "/uploads/" +:+ filename e f) <$> file in
      let newTweet :=
        Tweet.mk userId (User.name user) ("@" +:+ User.username user)
                 (User.avatar user) content image [] 0 [] (date_now e) in
      match save (save1_ok o)
              (Tweet_save_new (gen_id e) newTweet (tweets s)) with
      | None => server_error s
      | Some ts =>
          (State (users s) ts,
           Response 201 (Tweet_toJSON (gen_id e) newTweet))
      end).

(** Lines 201-223. *)
Definition toggleLike_io (o : outcome) (e : env) (s : state)
    (authorization : option string) (id : ObjectId) : state * response :=
  authenticate e s authorization (λ userId _,
    match tweets s !! id with
    | None => (s, Response 404 (error "Tweet not found"))
    | Some tweet =>
        let tweet :=
          Tweet.set_likes (toggle (Tweet.likes tweet) userId) tweet in
        match save (save1_ok o) (Some (Tweet_save_likes id tweet s)) with
        | None => server_error s
        | Some s => (s, Response 200 (Tweet_toJSON id tweet))
        end
    end).

(** Lines 226-258. When the second save rejects, the first one stays. *)
Definition follow_io (o : outcome) (e : env) (s : state)
    (authorization : option string) (id : ObjectId) : state * response :=
  authenticate e s authorization (λ me _,
    match users s !! id with
    | None => (s, Response 404 (error "User not found"))
    | Some userToFollow =>
        match users s !! me with
        | None => server_error s
        | Some currentUser =>
            if JS.includes (User.following currentUser) id then
              (s, Response 400 (error "Already following this user"))
            else
              let currentUser :=
                User.set_following
                  (JS.push (User.following currentUser) id) currentUser in
              let userToFollow :=
                User.set_followers
                  (JS.or0 (User.followers userToFollow) + 1) userToFollow in
              match save (save1_ok o)
                      (Some (User_save_following me currentUser s)) with
              | None => server_error s
              | Some s =>
                  match save (save2_ok o)
                          (Some (User_save_followers id userToFollow s)) with
                  | None => server_error s
                  | Some s =>
                      (s, Response 200
                            (JObject
                               [("following",
                                 ids_toJSON (User.following currentUser));
                                ("followedUsername",
                                 JString (User.username userToFollow))]))
                  end
              end
        end
    end).

(** Lines 261-294. *)
Definition unfollow_io (o : outcome) (e : env) (s : state)
    (authorization : option string) (id : ObjectId) : state * response :=
  authenticate e s authorization (λ me _,
    match users s !! id with
    | None => (s, Response 404 (error "User not found"))
    | Some userToUnfollow =>
        match users s !! me with
        | None => server_error s
        | Some currentUser =>
            match JS.indexOf (User.following currentUser) id with
            | None => (s, Response 400 (error "Not following this user"))
            | Some index =>
                let currentUser :=
                  User.set_following
                    (JS.splice1 (User.following currentUser) index)
                    currentUser in
                let userToUnfollow :=
                  User.set_followers
                    (0 `max` (JS.or0 (User.followers userToUnfollow) - 1))
                    userToUnfollow in
                match save (save1_ok o)
                        (Some (User_save_following me currentUser s)) with
                | None => server_error s
                | Some s =>
                    match save (save2_ok o)
                            (Some (User_save_followers id userToUnfollow s))
                    with
                    | None => server_error s
                    | Some s =>
                        (s, Response 200
                              (JObject
                                 [("following",
                                   ids_toJSON (User.following currentUser));
                                  ("unfollowedUsername",
                                   JString (User.username userToUnfollow))]))
                    end
                end
            end
        end
    end).

(** Lines 333-366. When the tweet cannot be read again, the comment stays. *)
Definition addComment_io (o : outcome) (e : env) (s : state)
    (authorization : option string) (id : ObjectId)
    (content : option string) : state * response :=
  authenticate e s authorization (λ userId user,
    if JS.falsy content then
      (s, Response 400 (error "Content is required"))
    else
      let content := default "" content in
      match tweets s !! id with
      | None => (s, Response 404 (error "Tweet not found"))
      | Some tweet =>
          let newComment :=
            Comment.mk userId (User.name user) (User.username user)
                       (User.avatar user) content (date_now e) in
          let tweet :=
            Tweet.set_comments (JS.push (Tweet.comments tweet) newComment)
                               tweet in
          match save (save1_ok o) (Some (Tweet_save_comments id tweet s)) with
          | None => server_error s
          | Some s =>
              match save (reread_ok o) (Some (tweets s !! id)) with
              | None => server_error s
              | Some None => (s, Response 200 JNull)
              | Some (Some updatedTweet) =>
                  (s, Response 200 (Tweet_toJSON id updatedTweet))
              end
          end
      end).

Definition serve_io (o : outcome) (e : env) (s : state) (r : request)
  : state * response :=
  match r with
  | Signup username password name =>
      signup_io o e s username password name
  | CreateTweet authorization content file =>
      createTweet_io o e s authorization content file
  | ToggleLike authorization id => toggleLike_io o e s authorization id
  | Follow authorization id => follow_io o e s authorization id
  | Unfollow authorization id => unfollow_io o e s authorization id
  | AddComment authorization id content =>
      addComment_io o e s authorization id content
  | _ => serve e s r
  end.

Fixpoint run_io (s : state) (l : list (outcome * env * request)) : state :=
  match l with
  | [] => s
  | (o, e, r) :: l' => run_io (serve_io o e s r).1 l'
  end.

(** The same requests, when every call goes through. *)
Definition without_outcomes (l : list (outcome * env * request))
  : list (env * request) :=
  (λ x, (x.1.2, x.2)) <$> l.

(** ** Classes of requests *)

(** The [Authorization] header of a request to a route behind
    [authenticate]. *)
Definition protected_header (r : request) : option (option string) :=
  match r with
  | CreateTweet authorization _ _ | ToggleLike authorization _
  | Follow authorization _ | Unfollow authorization _
  | AddComment authorization _ _ => Some authorization
  | _ => None
  end.

(** The routes whose handlers call no [save]. *)
Definition read_only (r : request) : bool :=
  match r with
  | Login _ _ | ListTweets | GetFollowing _ | GetProfile _
  | ListUserTweets _ => true
  | _ => false
  end.

(** ** Two invariants of the collection of users *)

(** The username identifies the user. *)
Definition usernames_unique (s : state) : Prop :=
  ∀ i j u v, users s !! i = Some u → users s !! j = Some v →
             User.username u = User.username v → i = j.

(** A following list holds no id twice, and ids of stored users only. *)
Definition following_ok (s : state) : Prop :=
  ∀ i u, users s !! i = Some u →
         NoDup (User.following u) ∧
         ∀ j, j ∈ User.following u → is_Some (users s !! j).

(** ** The followers of a user, counted from the following lists *)

(** The users whose [following] holds [id]. *)
Definition follower_ids (s : state) (id : ObjectId) : gset ObjectId :=
  dom (filter (λ d, id ∈ User.following d.2) (users s)).

Definition follower_count (s : state) (id : ObjectId) : nat :=
  size (follower_ids s id).

(** ** What a tweet and a comment copy from a user *)

(** The author, handle and avatar of the tweet are those of the stored user
    [userId], as stored now. *)
Definition tweet_current (s : state) (t : Tweet.t) : Prop :=
  ∃ u, users s !! Tweet.userId t = Some u ∧
       Tweet.author t = User.name u ∧
       Tweet.handle t = "@" +:+ User.username u ∧
       Tweet.avatar t = User.avatar u.

(** The same for the [user] object of a comment. *)
Definition comment_current (s : state) (c : Comment.t) : Prop :=
  ∃ u, users s !! Comment.user_id c = Some u ∧
       Comment.user_name c = User.name u ∧
       Comment.user_username c = User.username u ∧
       Comment.user_avatar c = User.avatar u.

(** ** A longer run: Bob follows Ann, likes her post and comments on it *)

Definition demo_trace2 : list (env * request) :=
  demo_trace
  ++ [(demo_env 0 5000, Follow (Some "Bearer bob") 1);
      (demo_env 0 6000, ToggleLike (Some "Bearer bob") 10);
      (demo_env 0 7000, AddComment (Some "Bearer bob") 10 (Some "nice"))].

Definition demo_db2 : state := run empty_db demo_trace2.

(** The same run, with the outcome of the saves: all of them go through. *)
Definition demo_trace2_io : list (outcome * env * request) :=
  (λ x, (all_ok, x.1, x.2)) <$> demo_trace2.

(** What that run stores for Ann, for Bob and for the post. *)
Definition ann2 : User.t := User.set_followers 1 ann.
Definition bob2 : User.t := User.set_following [1%N] bob.
Definition nice : Comment.t := Comment.mk 2 "Bob" "bob" "B" "nice" 7000.
Definition hello2 : Tweet.t :=
  Tweet.set_comments [nice] (Tweet.set_likes [2%N] hello).

(** * Properties *)

(** ** Strings *)

Lemma append_empty_r (s : string) : s +:+ "" = s.
Proof.
  induction s as [|c s IH]; [done|].
  change (String c (s +:+ "") = String c s). by rewrite IH.
Qed.

Lemma append_assoc (s1 s2 s3 : string) :
  (s1 +:+ s2) +:+ s3 = s1 +:+ (s2 +:+ s3).
Proof.
  induction s1 as [|c s1 IH]; [done|].
  change (String c ((s1 +:+ s2) +:+ s3) = String c (s1 +:+ (s2 +:+ s3))).
  by rewrite IH.
Qed.

Lemma append_eq_empty (s1 s2 : string) : s1 +:+ s2 = "" → s1 = "" ∧ s2 = "".
Proof. destruct s1; [done|]. discriminate. Qed.

Lemma split_cons (sep : ascii) (s : string) :
  ∃ w ws, JS.split sep s = w :: ws.
Proof.
  induction s as [|c s (w & ws & IH)]; cbn; [by eauto|].
  case_decide; [by eauto|]. rewrite IH. eauto.
Qed.

Lemma concat_empty_cons (w : string) (ws : list string) :
  String.concat "" (w :: ws) = w +:+ String.concat "" ws.
Proof.
  destruct ws as [|w' ws]; [|done].
  change (w = w +:+ ""). by rewrite append_empty_r.
Qed.

(** The code keeps the empty pieces of [split] and reads [undefined] as their
    first character; the tokens are the pieces that are not empty. *)
Lemma tokens_from_split (cur s : string) :
  ∃ w ws, JS.split " "%char s = w :: ws ∧
          tokens_from is_blank cur s
          = filter (λ x, x ≠ "") ((cur +:+ w) :: ws).
Proof.
  revert cur. induction s as [|c s IH]; intros cur; simpl.
  - eexists _, _. split; [done|]. rewrite append_empty_r.
    rewrite filter_cons, filter_nil. by repeat case_decide.
  - unfold is_blank at 1. rewrite bool_decide_decide.
    destruct (decide (c = " "%char)) as [->|Hc].
    + eexists _, _. split; [done|]. rewrite append_empty_r.
      destruct (IH "") as (w & ws & Hs & Ht). rewrite Hs, Ht.
      rewrite (filter_cons _ cur). by repeat case_decide.
    + destruct (IH (cur +:+ String c "")) as (w & ws & Hs & Ht).
      rewrite Hs. eexists _, _. split; [done|].
      by rewrite Ht, append_assoc.
Qed.

Lemma tokens_split (s : string) :
  tokens is_blank s = filter (λ x, x ≠ "") (JS.split " "%char s).
Proof.
  unfold tokens. destruct (tokens_from_split "" s) as (w & ws & -> & ->).
  done.
Qed.

Lemma join_index0 (l : list string) :
  JS.join (JS.index0 <$> l)
  = String.concat "" (first_character <$> filter (λ x, x ≠ "") l).
Proof.
  induction l as [|w l IH]; [done|]. destruct w as [|c w].
  - by rewrite filter_cons_False by (by intros []).
  - rewrite filter_cons_True by done.
    by rewrite !fmap_cons, concat_empty_cons, <-IH.
Qed.

Lemma toUpperCase_substring (s : string) :
  JS.toUpperCase (JS.substring 0 2 s)
  = String.substring 0 2 (JS.toUpperCase s).
Proof. destruct s as [|a [|b [|c s]]]; reflexivity. Qed.

Lemma avatar_initials (name : string) : avatar name = initials is_blank name.
Proof.
  unfold avatar, initials.
  by rewrite toUpperCase_substring, join_index0, tokens_split.
Qed.

(** ** The store *)

Lemma User_findOne_Some us username i u :
  User_findOne us username = Some (i, u) →
  us !! i = Some u ∧ User.username u = username.
Proof.
  unfold User_findOne. intros H%head_Some_elem_of.
  apply list_elem_of_filter in H as [? H]. by apply elem_of_map_to_list in H.
Qed.

Lemma User_findOne_None us username :
  User_findOne us username = None ↔
  ∀ i u, us !! i = Some u → User.username u ≠ username.
Proof.
  unfold User_findOne. rewrite head_None. split.
  - intros H i u Hi Hu.
    assert ((i, u) ∈ filter (λ d, User.username d.2 = username)
                       (map_to_list us)) as Hin.
    { apply list_elem_of_filter. split; [done|]. by apply elem_of_map_to_list. }
    rewrite H in Hin. by apply elem_of_nil in Hin.
  - intros H. apply elem_of_nil_inv. intros [i u] Hin.
    apply list_elem_of_filter in Hin as [Hu Hin].
    apply elem_of_map_to_list in Hin. by apply (H i u).
Qed.

Lemma authenticate_signed_in e s authorization userId :
  signed_in e s authorization userId →
  ∃ user, users s !! userId = Some user ∧
          ∀ next, authenticate e s authorization next = next userId user.
Proof.
  intros (token & Hb & Hne & Hv & [user Hu]). exists user. split; [done|].
  intros next. unfold authenticate. rewrite Hb. simpl.
  destruct token; [done|]. by rewrite Hv, Hu.
Qed.

Lemma run_snoc s l e r : run s (l ++ [(e, r)]) = (serve e (run s l) r).1.
Proof.
  revert s. induction l as [|[e' r'] l IH]; intros s; simpl; [done|].
  apply IH.
Qed.

Lemma run_app s l1 l2 : run s (l1 ++ l2) = run (run s l1) l2.
Proof.
  revert s. induction l1 as [|[e' r'] l IH]; intros s; simpl; [done|].
  apply IH.
Qed.

Lemma reachable_empty : reachable empty_db.
Proof. by exists []. Qed.

Lemma reachable_serve e s r : reachable s → reachable (serve e s r).1.
Proof. intros [l ->]. exists (l ++ [(e, r)]). by rewrite run_snoc. Qed.

Lemma reachable_run s l : reachable s → reachable (run s l).
Proof. intros [l0 ->]. exists (l0 ++ l). by rewrite run_app. Qed.

Lemma reachable_invariant (P : state → Prop) :
  P empty_db → (∀ e s r, P s → P (serve e s r).1) → ∀ s, reachable s → P s.
Proof.
  intros H0 Hstep s [l ->]. induction l as [|[e r] l IH] using rev_ind; [done|].
  rewrite run_snoc. by apply Hstep.
Qed.

Ltac handlers :=
  unfold serve, signup, login, listTweets, listUserTweets, createTweet,
    toggleLike, follow, unfollow, getFollowing, getProfile, addComment,
    authenticate, server_error, User_save_new, Tweet_save_new,
    User_save_following, User_save_followers, Tweet_save_likes,
    Tweet_save_comments.

(** What one request can do to a stored document. *)

Lemma serve_tweet_Some e s r i t :
  tweets s !! i = Some t →
  ∃ t', tweets (serve e s r).1 !! i = Some t' ∧ same_post t t' ∧
        (Tweet.likes t' = Tweet.likes t ∨
         ∃ userId, Tweet.likes t' = toggle (Tweet.likes t) userId).
Proof.
  intros Hi. destruct r; handlers; repeat case_match; simplify_eq/=;
    try (exists t; by repeat split; auto).
  all: rewrite ?lookup_alter, ?lookup_insert.
  all: repeat case_decide; simplify_eq/=; rewrite ?Hi; simpl.
  all: eexists; split; [done|]; unfold same_post; simpl.
  all: split; [done|]; eauto.
Qed.

Lemma serve_tweet_None e s r i :
  tweets s !! i = None →
  tweets (serve e s r).1 !! i = None ∨
  ∃ t', tweets (serve e s r).1 !! i = Some t' ∧ Tweet_validate t' = true ∧
        Tweet.likes t' = [] ∧ Tweet.retweets t' = 0%Z.
Proof.
  intros Hi. destruct r; handlers; repeat case_match; simplify_eq/=;
    try by left.
  all: rewrite ?lookup_alter, ?lookup_insert.
  all: repeat case_decide; simplify_eq/=; rewrite ?Hi; simpl; try by left.
  right. eexists. by split.
Qed.

Lemma serve_user_Some e s r i u :
  users s !! i = Some u →
  ∃ u', users (serve e s r).1 !! i = Some u' ∧ same_account u u' ∧
        ((0 ≤ User.followers u)%Z → (0 ≤ User.followers u')%Z).
Proof.
  intros Hi. destruct r; handlers; repeat case_match; simplify_eq/=;
    try (exists u; by repeat split; auto).
  all: rewrite ?lookup_alter, ?lookup_insert.
  all: repeat case_decide; simplify_eq/=; rewrite ?Hi; simpl.
  all: eexists; split; [done|]; unfold same_account, JS.or0; simpl.
  all: split; [done|]; repeat case_decide; lia.
Qed.

Lemma serve_user_None e s r i :
  users s !! i = None →
  users (serve e s r).1 !! i = None ∨
  ∃ u', users (serve e s r).1 !! i = Some u' ∧ User_validate u' = true ∧
        User.following u' = [] ∧ User.followers u' = 0%Z.
Proof.
  intros Hi. destruct r; handlers; repeat case_match; simplify_eq/=;
    try by left.
  all: rewrite ?lookup_alter, ?lookup_insert.
  all: repeat case_decide; simplify_eq/=; rewrite ?Hi; simpl; try by left.
  right. eexists. by split.
Qed.

(** ** Arrays *)

Lemma indexOf_None `{EqDecision A} (l : list A) x :
  JS.indexOf l x = None ↔ x ∉ l.
Proof.
  induction l as [|y l IH]; simpl.
  - split; [|done]. intros _. apply not_elem_of_nil.
  - rewrite not_elem_of_cons. case_decide as Hy.
    + split; [done|]. by intros [? _].
    + rewrite fmap_None, IH. split; [|by intros [_ ?]].
      intros ?. split; [by intros ->|done].
Qed.

Lemma indexOf_Some `{EqDecision A} (l : list A) x i :
  JS.indexOf l x = Some i → l !! i = Some x ∧ x ∉ take i l.
Proof.
  revert i. induction l as [|y l IH]; intros i; simpl; [done|].
  case_decide as Hy.
  - intros [= <-]. split; [by rewrite Hy|]. apply not_elem_of_nil.
  - intros (j & Hj & ->)%fmap_Some. destruct (IH j Hj) as [? ?].
    split; [done|]. simpl. rewrite not_elem_of_cons. split; [|done].
    by intros ->.
Qed.

Lemma indexOf_push `{EqDecision A} (l : list A) x :
  x ∉ l → JS.indexOf (JS.push l x) x = Some (length l).
Proof.
  unfold JS.push. induction l as [|y l IH]; simpl; intros Hx.
  - by case_decide.
  - apply not_elem_of_cons in Hx as [? ?]. case_decide; [done|].
    by rewrite IH.
Qed.

Lemma splice1_push {A} (l : list A) x : JS.splice1 (JS.push l x) (length l) = l.
Proof.
  unfold JS.splice1, JS.push. induction l as [|y l IH]; simpl; [done|].
  by rewrite IH.
Qed.

Lemma includes_false `{EqDecision A} (l : list A) x :
  JS.includes l x = false ↔ x ∉ l.
Proof. unfold JS.includes. apply bool_decide_eq_false. Qed.

Lemma includes_true `{EqDecision A} (l : list A) x :
  JS.includes l x = true ↔ x ∈ l.
Proof. unfold JS.includes. apply bool_decide_eq_true. Qed.

(** Removing the only occurrence of [x] leaves a list without [x]. *)
Lemma splice1_NoDup `{EqDecision A} (l : list A) x i :
  NoDup l → JS.indexOf l x = Some i →
  NoDup (JS.splice1 l i) ∧ x ∉ JS.splice1 l i.
Proof.
  intros Hl [Hi Hx]%indexOf_Some. unfold JS.splice1.
  rewrite <-(take_drop_middle l i x Hi) in Hl.
  rewrite delete_take_drop.
  apply NoDup_app in Hl as (H1 & H2 & H3).
  apply NoDup_cons in H3 as [H3 H4]. split.
  - apply NoDup_app. split; [done|]. split; [|done].
    intros y Hy. specialize (H2 y Hy). rewrite not_elem_of_cons in H2. tauto.
  - rewrite not_elem_of_app. done.
Qed.

Lemma toggle_NoDup (likes : list ObjectId) userId :
  NoDup likes → NoDup (toggle likes userId).
Proof.
  intros Hl. unfold toggle. destruct (JS.indexOf likes userId) as [i|] eqn:Hi.
  - by apply (splice1_NoDup likes userId i).
  - apply indexOf_None in Hi. unfold JS.push. apply NoDup_app.
    split; [done|]. split; [|apply NoDup_singleton].
    intros y Hy ->%list_elem_of_singleton. done.
Qed.

Lemma toggle_absent (likes : list ObjectId) userId :
  userId ∉ likes → toggle likes userId = JS.push likes userId.
Proof. intros H%indexOf_None. unfold toggle. by rewrite H. Qed.

Lemma toggle_present (likes : list ObjectId) userId :
  NoDup likes → userId ∈ likes → userId ∉ toggle likes userId.
Proof.
  intros Hl Hin. unfold toggle.
  destruct (JS.indexOf likes userId) as [i|] eqn:Hi.
  - by apply (splice1_NoDup likes userId i).
  - by apply indexOf_None in Hi.
Qed.

(** Two toggles in a row by the same user. *)
Lemma toggle_toggle (likes : list ObjectId) userId :
  NoDup likes →
  userId ∈ toggle (toggle likes userId) userId ↔ userId ∈ likes.
Proof.
  intros Hl. destruct (decide (userId ∈ likes)) as [Hin|Hout].
  - split; [done|]. intros _.
    rewrite (toggle_absent (toggle likes userId)) by by apply toggle_present.
    unfold JS.push. set_solver.
  - rewrite (toggle_absent likes) by done. unfold toggle.
    rewrite (indexOf_push likes userId Hout), splice1_push. done.
Qed.

(** ** Invariants of the reachable databases *)

Lemma reachable_users s :
  reachable s →
  ∀ i u, users s !! i = Some u →
         User_validate u = true ∧ (0 ≤ User.followers u)%Z.
Proof.
  revert s.
  apply (reachable_invariant
           (λ s, ∀ i u, users s !! i = Some u →
                        User_validate u = true ∧ (0 ≤ User.followers u)%Z));
    [done|].
  intros e s r IH i u' Hi.
  destruct (users s !! i) as [u|] eqn:Hs.
  - destruct (serve_user_Some e s r i u Hs) as (u2 & H2 & Hsame & Hf).
    destruct (IH i u Hs) as [Hv H0]. simplify_eq.
    split; [|by auto]. destruct Hsame as (Hn & Hp & Hna & _).
    unfold User_validate in *. by rewrite Hn, Hp, Hna.
  - destruct (serve_user_None e s r i Hs) as [H2|(u2 & H2 & Hv & _ & Hf)];
      simplify_eq. split; [done|lia].
Qed.

(** The [likes] of a stored tweet hold no id twice. *)
Lemma reachable_likes s :
  reachable s →
  ∀ i t, tweets s !! i = Some t → NoDup (Tweet.likes t).
Proof.
  revert s.
  apply (reachable_invariant
           (λ s, ∀ i t, tweets s !! i = Some t → NoDup (Tweet.likes t)));
    [done|].
  intros e s r IH i t' Hi.
  destruct (tweets s !! i) as [t|] eqn:Hs.
  - destruct (serve_tweet_Some e s r i t Hs) as (t2 & H2 & _ & Hl).
    specialize (IH i t Hs). simplify_eq.
    destruct Hl as [->|[userId ->]]; [done|]. by apply toggle_NoDup.
  - destruct (serve_tweet_None e s r i Hs) as [H2|(t2 & H2 & _ & Hl & _)];
      simplify_eq. rewrite Hl. apply NoDup_nil_2.
Qed.

(** ** GetProfile *)

(** C1, as amended: for every stored user, GetProfile answers 200 with the
    whole stored document, not a projection: its keys are _id, username,
    password, name, avatar, bio, following, followers and the version key
    __v, with the stored values; when the id is well formed and no user has
    it the answer is 404 "User not found", and when the id is not well
    formed it is 500 "Server error". The database is not changed. *)
Theorem getProfile_whole_record (e : env) (s : state) (id : string) :
  (∀ _id user, cast_ObjectId e id = Some _id → users s !! _id = Some user →
     ∃ fields,
       getProfile e s id = (s, Response 200 (JObject fields)) ∧
       (∀ k, k ∈ fields.*1 ↔
             k ∈ ["_id"; "username"; "password"; "name"; "avatar"; "bio";
                  "following"; "followers"; "__v"]) ∧
       ("_id", JObjectId _id) ∈ fields ∧
       ("username", JString (User.username user)) ∈ fields ∧
       ("password", JString (User.password user)) ∈ fields ∧
       ("name", JString (User.name user)) ∈ fields ∧
       ("avatar", JString (User.avatar user)) ∈ fields ∧
       ("bio", JString (User.bio user)) ∈ fields ∧
       ("following", ids_toJSON (User.following user)) ∈ fields ∧
       ("followers", JNumber (User.followers user)) ∈ fields) ∧
  (∀ _id, cast_ObjectId e id = Some _id → users s !! _id = None →
     getProfile e s id = (s, Response 404 (error "User not found"))) ∧
  (cast_ObjectId e id = None →
     getProfile e s id = (s, Response 500 (error "Server error"))).
Proof.
  unfold getProfile. split; [|split].
  - intros _id user -> ->. eexists. split; [reflexivity|]. split.
    + intros k. simpl. reflexivity.
    + repeat split; simpl; rewrite !elem_of_cons; tauto.
  - by intros _id -> ->.
  - by intros ->.
Qed.

(** ** Signup *)

(** C5, as amended: Signup stores as avatar label the first characters of
    the tokens of the name separated by the space character U+0020,
    concatenated, upper-cased and cut to two characters (names of ASCII
    characters); "Ann Lee" gives "AL" and "X" gives "X". *)
Theorem signup_avatar :
  (∀ e s username password name,
     username ≠ "" → password ≠ "" → name ≠ "" → ascii_only name →
     bcrypt_hash e password ≠ "" →
     (∀ i u, users s !! i = Some u → User.username u ≠ username) →
     users s !! gen_id e = None →
     ∃ user,
       signup e s (Some username) (Some password) (Some name)
       = (State (<[gen_id e := user]> (users s)) (tweets s),
          Response 200
            (JObject [("user", session_toJSON e (gen_id e) user);
                      ("message", JString "User created")])) ∧
       User.name user = name ∧
       User.avatar user = initials is_blank name) ∧
  avatar "Ann Lee" = "AL" ∧ avatar "X" = "X".
Proof.
  split; [|done].
  intros e s username password name Hu Hp Hn _ Hh Hfree Hid.
  eexists. unfold signup.
  destruct username; [done|]. destruct password; [done|].
  destruct name; [done|]. simpl.
  apply User_findOne_None in Hfree. rewrite Hfree.
  unfold User_save_new, User_validate, required. simpl.
  rewrite Hfree, Hid, !bool_decide_eq_true_2 by done. simpl.
  split; [done|]. split; [done|]. simpl. apply avatar_initials.
Qed.

(** C6, as amended: Signup answers 400 "Please provide all fields" whenever
    one of username, password and name is missing or empty, and answers 400
    "Username already taken" whenever the three are non-empty and a user
    with that username is stored; in both cases the database is unchanged. *)
Theorem signup_rejected (e : env) (s : state)
    (username password name : option string) :
  (JS.falsy username = true ∨ JS.falsy password = true ∨
   JS.falsy name = true →
   signup e s username password name
   = (s, Response 400 (error "Please provide all fields"))) ∧
  (JS.falsy username = false → JS.falsy password = false →
   JS.falsy name = false →
   (∃ i u, users s !! i = Some u ∧ Some (User.username u) = username) →
   signup e s username password name
   = (s, Response 400 (error "Username already taken"))).
Proof.
  unfold signup. split.
  - intros [->|[->| ->]]; by rewrite ?orb_true_r.
  - intros -> -> -> (i & u & Hi & Hu). simpl.
    destruct (User_findOne (users s) (default "" username)) eqn:Hf; [done|].
    rewrite User_findOne_None in Hf. destruct (Hf i u Hi). by rewrite <-Hu.
Qed.

(** ** ListTweets *)

Global Instance newer_first_trans : Transitive newer_first.
Proof. unfold newer_first. intros a b c. lia. Qed.

Global Instance newer_first_total : Total newer_first.
Proof. unfold newer_first. intros a b. lia. Qed.

Lemma filter_True {A} (l : list A) : filter (λ _, True) l = l.
Proof.
  induction l as [|x l IH]; [done|]. by rewrite filter_cons_True, IH.
Qed.

(** C7: ListTweets answers 200 with all the stored tweets, each once,
    newest first; on a database without tweets the list is empty. *)
Theorem listTweets_newest_first (s : state) :
  (∃ l, listTweets s = (s, Response 200 (tweets_toJSON l)) ∧
        l ≡ₚ map_to_list (tweets s) ∧
        StronglySorted newer_first l) ∧
  (∀ us, listTweets (State us ∅)
         = (State us ∅, Response 200 (JArray []))).
Proof.
  split.
  - eexists. split; [done|]. unfold Tweet_find_sorted. split.
    + by rewrite merge_sort_Permutation, filter_True.
    + apply StronglySorted_merge_sort; apply _.
  - intros us. unfold listTweets, Tweet_find_sorted. simpl.
    by rewrite map_to_list_empty.
Qed.

(** ** ToggleLike *)

Lemma toggleLike_signed_in e s authorization id userId tweet :
  signed_in e s authorization userId → tweets s !! id = Some tweet →
  toggleLike e s authorization id
  = (State (users s)
       (<[id := Tweet.set_likes (toggle (Tweet.likes tweet) userId) tweet]>
          (tweets s)),
     Response 200
       (Tweet_toJSON id
          (Tweet.set_likes (toggle (Tweet.likes tweet) userId) tweet))).
Proof.
  intros (user & _ & Hauth)%authenticate_signed_in Hid.
  unfold toggleLike. rewrite Hauth, Hid. unfold Tweet_save_likes. simpl.
  do 2 f_equal. apply map_eq. intros j.
  rewrite lookup_alter, lookup_insert. case_decide; [|done].
  simplify_eq. by rewrite Hid.
Qed.

(** C10: a ToggleLike by a signed-in user on a stored tweet answers 200 and
    changes nothing but the [likes] of that tweet: the users and the other
    tweets are the same, and so are the other fields of the tweet. *)
Theorem toggleLike_frame e s authorization id userId tweet :
  signed_in e s authorization userId → tweets s !! id = Some tweet →
  let s' := (toggleLike e s authorization id).1 in
  status (toggleLike e s authorization id).2 = 200 ∧
  users s' = users s ∧
  (∀ j, j ≠ id → tweets s' !! j = tweets s !! j) ∧
  ∃ tweet', tweets s' !! id = Some tweet' ∧
            same_post tweet tweet' ∧
            Tweet.comments tweet' = Tweet.comments tweet ∧
            Tweet.likes tweet' = toggle (Tweet.likes tweet) userId.
Proof.
  intros Hin Hid. rewrite (toggleLike_signed_in _ _ _ _ _ _ Hin Hid). simpl.
  split; [done|]. split; [done|]. split.
  - intros j Hj. by rewrite lookup_insert_ne.
  - eexists. rewrite lookup_insert_eq. split; [done|]. by repeat split.
Qed.

(** C2: in a reachable database, two ToggleLike requests in a row by the same
    signed-in user on a stored tweet both answer 200, and the user is among
    the likes of the tweet afterwards exactly when it was before. *)
Theorem toggleLike_twice e1 e2 s authorization id userId tweet :
  reachable s →
  signed_in e1 s authorization userId →
  signed_in e2 s authorization userId →
  tweets s !! id = Some tweet →
  let r1 := toggleLike e1 s authorization id in
  let r2 := toggleLike e2 r1.1 authorization id in
  status r1.2 = 200 ∧ status r2.2 = 200 ∧
  ∃ tweet2, tweets r2.1 !! id = Some tweet2 ∧
            r2.2 = Response 200 (Tweet_toJSON id tweet2) ∧
            (userId ∈ Tweet.likes tweet2 ↔ userId ∈ Tweet.likes tweet).
Proof.
  intros Hr Hin1 Hin2 Hid.
  rewrite (toggleLike_signed_in _ _ _ _ _ _ Hin1 Hid). simpl.
  assert (signed_in e2
            (State (users s)
               (<[id := Tweet.set_likes (toggle (Tweet.likes tweet) userId)
                          tweet]> (tweets s))) authorization userId) as Hin2'
    by done.
  rewrite (toggleLike_signed_in _ _ _ _ _ _ Hin2' (lookup_insert_eq _ _ _)).
  simpl. split; [done|]. split; [done|]. eexists.
  rewrite lookup_insert_eq. split; [done|]. split; [done|]. simpl.
  apply toggle_toggle. by apply (reachable_likes s Hr id).
Qed.

(** ** Follow and Unfollow *)

(** C4: when the signed-in user already follows the stored user [id], Follow
    answers 400 "Already following this user" and leaves the database as it
    was. *)
Theorem follow_already_following e s authorization me id currentUser :
  signed_in e s authorization me →
  users s !! me = Some currentUser →
  is_Some (users s !! id) →
  id ∈ User.following currentUser →
  follow e s authorization id
  = (s, Response 400 (error "Already following this user")).
Proof.
  intros (user & _ & Hauth)%authenticate_signed_in Hme [target Hid] Hin.
  unfold follow. rewrite Hauth, Hid, Hme.
  apply includes_true in Hin. by rewrite Hin.
Qed.

Lemma follow_signed_in e s authorization me id currentUser userToFollow :
  signed_in e s authorization me →
  users s !! me = Some currentUser →
  users s !! id = Some userToFollow →
  id ∉ User.following currentUser →
  follow e s authorization id
  = (State
       (alter (User.set_followers (JS.or0 (User.followers userToFollow) + 1))
          id
          (alter (User.set_following (JS.push (User.following currentUser) id))
             me (users s)))
       (tweets s),
     Response 200
       (JObject
          [("following",
            ids_toJSON (JS.push (User.following currentUser) id));
           ("followedUsername", JString (User.username userToFollow))])).
Proof.
  intros (user & _ & Hauth)%authenticate_signed_in Hme Hid Hin.
  unfold follow. rewrite Hauth, Hid, Hme.
  apply includes_false in Hin. by rewrite Hin.
Qed.

(** C3: in a reachable database, when the signed-in user [me] does not follow
    the stored user [id], Follow and then Unfollow both answer 200 and leave
    the database as it was before the Follow: the following list of [me] and
    the followers counter of [id] are what they were. *)
Theorem follow_unfollow e1 e2 s authorization me id currentUser target :
  reachable s →
  signed_in e1 s authorization me →
  signed_in e2 s authorization me →
  users s !! me = Some currentUser →
  users s !! id = Some target →
  id ∉ User.following currentUser →
  let r1 := follow e1 s authorization id in
  let r2 := unfollow e2 r1.1 authorization id in
  status r1.2 = 200 ∧ status r2.2 = 200 ∧
  (∃ u, users r2.1 !! me = Some u ∧
        User.following u = User.following currentUser) ∧
  (∃ u, users r2.1 !! id = Some u ∧
        User.followers u = User.followers target) ∧
  r2.1 = s.
Proof.
  intros Hr Hin1 Hin2 Hme Hid Hnot.
  rewrite (follow_signed_in _ _ _ _ _ _ _ Hin1 Hme Hid Hnot). simpl.
  destruct (reachable_users s Hr id target Hid) as [_ Hpos].
  set (us1 := alter _ id (alter _ me (users s))).
  assert (signed_in e2 (State us1 (tweets s)) authorization me) as Hin2'.
  { destruct Hin2 as (token & ? & ? & ? & _). exists token.
    repeat split; try done. simpl. unfold us1.
    rewrite !lookup_alter_is_Some. by eexists. }
  apply authenticate_signed_in in Hin2' as (user & _ & Hauth).
  unfold unfollow. rewrite Hauth. simpl.
  assert (∃ u1, us1 !! id = Some u1 ∧
                User.followers u1 = (JS.or0 (User.followers target) + 1)%Z)
    as (u1 & Hu1 & Hf1).
  { unfold us1. rewrite !lookup_alter. repeat case_decide; simplify_eq;
      rewrite ?Hid, ?Hme; simpl; by eexists. }
  assert (∃ c1, us1 !! me = Some c1 ∧
                User.following c1 = JS.push (User.following currentUser) id)
    as (c1 & Hc1 & Hg1).
  { unfold us1. rewrite !lookup_alter. repeat case_decide; simplify_eq;
      rewrite ?Hid, ?Hme; simpl; by eexists. }
  rewrite Hu1, Hc1, Hg1, (indexOf_push _ _ Hnot), splice1_push. simpl.
  unfold User_save_following, User_save_followers. simpl.
  assert ((0 `max` (JS.or0 (JS.or0 (User.followers target) + 1) - 1))%Z
          = User.followers target) as Hback.
  { unfold JS.or0. repeat case_decide; lia. }
  rewrite Hf1, Hback.
  assert (alter (User.set_followers (User.followers target)) id
            (alter (User.set_following (User.following currentUser)) me us1)
          = users s) as Hsame.
  { apply map_eq. intros j. unfold us1. rewrite !lookup_alter.
    repeat case_decide; simplify_eq; rewrite ?Hid, ?Hme; simpl; try done.
    all: try by destruct target. all: by destruct currentUser. }
  rewrite Hsame. split; [done|]. split; [done|].
  split; [by eexists|]. split; [by eexists|]. by destruct s.
Qed.

(** ** CreateTweet and the life of a tweet *)

Lemma same_post_trans (t1 t2 t3 : Tweet.t) :
  same_post t1 t2 → same_post t2 t3 → same_post t1 t3.
Proof. unfold same_post. intros ? ?. intuition congruence. Qed.

Lemma same_post_refl (t : Tweet.t) : same_post t t.
Proof. by repeat split. Qed.

(** No sequence of requests changes the fields of a stored tweet other than
    [likes] and [comments]. *)
Lemma run_tweet_Some (l : list (env * request)) s i t :
  tweets s !! i = Some t →
  ∃ t', tweets (run s l) !! i = Some t' ∧ same_post t t'.
Proof.
  revert s t. induction l as [|[e r] l IH]; intros s t Hi; simpl.
  - exists t. split; [done|]. apply same_post_refl.
  - destruct (serve_tweet_Some e s r i t Hi) as (t1 & H1 & Hs1 & _).
    destruct (IH _ _ H1) as (t2 & H2 & Hs2). exists t2.
    split; [done|]. by apply (same_post_trans _ t1).
Qed.

(** X25: in a reachable database, when a signed-in user whose stored avatar
    label is not empty posts non-empty content under a fresh id, CreateTweet
    answers 201 and stores a tweet whose author, handle and avatar are the
    name, "@" followed by the username, and the avatar of the user at that
    time; after any further requests the tweet is still stored with the same
    author, handle and avatar. *)
Theorem createTweet_snapshot e s authorization content file userId user :
  reachable s →
  signed_in e s authorization userId →
  users s !! userId = Some user →
  User.avatar user ≠ "" →
  content ≠ "" →
  tweets s !! gen_id e = None →
  ∃ tweet,
    createTweet e s authorization (Some content) file
    = (State (users s) (<[gen_id e := tweet]> (tweets s)),
       Response 201 (Tweet_toJSON (gen_id e) tweet)) ∧
    Tweet.author tweet = User.name user ∧
    Tweet.handle tweet = "@" +:+ User.username user ∧
    Tweet.avatar tweet = User.avatar user ∧
    ∀ l, ∃ tweet',
      tweets (run (createTweet e s authorization (Some content) file).1 l)
        !! gen_id e = Some tweet' ∧
      Tweet.author tweet' = Tweet.author tweet ∧
      Tweet.handle tweet' = Tweet.handle tweet ∧
      Tweet.avatar tweet' = Tweet.avatar tweet.
Proof.
  intros Hr Hin Hu Hav Hc Hfresh.
  destruct (reachable_users s Hr userId user Hu) as [Hv _].
  apply authenticate_signed_in in Hin as (user' & Hu' & Hauth).
  simplify_eq. unfold createTweet. rewrite Hauth.
  destruct content as [|c content]; [done|]. simpl.
  unfold Tweet_save_new, Tweet_validate, required. simpl.
  unfold User_validate, required in Hv.
  apply andb_true_iff in Hv as [_ Hname%bool_decide_eq_true].
  rewrite !bool_decide_eq_true_2 by done. simpl. rewrite Hfresh.
  eexists. split; [done|]. simpl. do 3 (split; [done|]). intros l.
  match goal with
  | |- context [run ?s0 l] =>
      destruct (run_tweet_Some l s0 (gen_id e) _ (lookup_insert_eq _ _ _))
        as (t' & Ht' & Hsame)
  end.
  exists t'. split; [exact Ht'|].
  destruct Hsame as (_ & Ha & Hh & Hav' & _). by simpl in *.
Qed.

(** C9: in every reachable database the [retweets] counter of every stored
    tweet is 0. *)
Theorem retweets_zero (s : state) (i : ObjectId) (tweet : Tweet.t) :
  reachable s → tweets s !! i = Some tweet → Tweet.retweets tweet = 0%Z.
Proof.
  intros Hr. revert s Hr i tweet.
  apply (reachable_invariant
           (λ s, ∀ i t, tweets s !! i = Some t → Tweet.retweets t = 0%Z));
    [done|].
  intros e s r IH i t' Hi.
  destruct (tweets s !! i) as [t|] eqn:Hs.
  - destruct (serve_tweet_Some e s r i t Hs) as (t2 & H2 & Hsame & _).
    specialize (IH i t Hs). simplify_eq.
    destruct Hsame as (_ & _ & _ & _ & _ & _ & Hr & _). congruence.
  - by destruct (serve_tweet_None e s r i Hs)
      as [H2|(t2 & H2 & _ & _ & Hr)]; simplify_eq.
Qed.

(** * The statements on the run of Ann, Bob and the user named " " *)

Lemma demo_db_reachable : reachable demo_db.
Proof. by exists demo_trace. Defined.

Ltac demo_signed_in token :=
  exists token; split; [reflexivity|]; split; [discriminate|];
  split; [reflexivity|]; vm_compute; eauto.

Ltac demo_lookup := vm_compute; reflexivity.

(** *** GetProfile *)

(** The claim of C1 fails on Ann: the answer has her password hash, which
    is not a key of the projection. *)
Lemma getProfile_sends_password :
  cast_ObjectId (demo_env 0 0) "1" = Some 1%N ∧
  users demo_db !! 1%N = Some ann ∧
  status (getProfile (demo_env 0 0) demo_db "1").2 = 200 ∧
  "password" ∈ json_keys (body (getProfile (demo_env 0 0) demo_db "1").2) ∧
  "password" ∉ profile_keys.
Proof.
  split; [reflexivity|]. split; [demo_lookup|]. split; [demo_lookup|].
  split; apply (bool_decide_unpack _); vm_compute; exact I.
Qed.

Lemma getProfile_whole_record_witness :
  (users demo_db !! 1%N = Some ann ∧
   ∃ fields,
     getProfile (demo_env 0 0) demo_db "1"
     = (demo_db, Response 200 (JObject fields)) ∧
     ("password", JString "$2a$10$pw") ∈ fields) ∧
  (users demo_db !! 9%N = None ∧
   getProfile (demo_env 0 0) demo_db "9"
   = (demo_db, Response 404 (error "User not found"))) ∧
  getProfile (demo_env 0 0) demo_db "ann"
  = (demo_db, Response 500 (error "Server error")).
Proof.
  assert (users demo_db !! 1%N = Some ann) as H1 by demo_lookup.
  assert (users demo_db !! 9%N = None) as H9 by demo_lookup.
  destruct (getProfile_whole_record (demo_env 0 0) demo_db "1")
    as (Hok & _ & _).
  destruct (getProfile_whole_record (demo_env 0 0) demo_db "9")
    as (_ & Hnone & _).
  destruct (getProfile_whole_record (demo_env 0 0) demo_db "ann")
    as (_ & _ & Hcast).
  split; [split; [done|]|split; [split; [done|]|]].
  - destruct (Hok 1%N ann eq_refl H1) as (fields & Hr & _ & _ & _ & Hp & _).
    by exists fields.
  - by apply (Hnone 9%N).
  - by apply Hcast.
Defined.

(** *** Signup *)

(** The claim of C5 fails on a name whose words are separated by a tab: the
    code splits at spaces only. *)
Lemma avatar_tab_name :
  tab_name ≠ "" ∧ ascii_only tab_name ∧
  avatar tab_name = "A" ∧ initials is_whitespace tab_name = "AB" ∧
  avatar tab_name ≠ initials is_whitespace tab_name.
Proof.
  split; [done|]. split.
  { unfold ascii_only, tab_name. simpl. repeat constructor. }
  split; [reflexivity|]. split; [reflexivity|]. discriminate.
Qed.

Lemma signup_avatar_witness :
  "zoe" ≠ "" ∧ "pw" ≠ "" ∧ "Zoe  van Dam" ≠ "" ∧
  ascii_only "Zoe  van Dam" ∧
  users demo_db !! 4%N = None ∧
  ∃ user,
    signup (demo_env 4 5000) demo_db (Some "zoe") (Some "pw")
      (Some "Zoe  van Dam")
    = (State (<[4%N := user]> (users demo_db)) (tweets demo_db),
       Response 200
         (JObject [("user", session_toJSON (demo_env 4 5000) 4 user);
                   ("message", JString "User created")])) ∧
    User.name user = "Zoe  van Dam" ∧
    User.avatar user = initials is_blank "Zoe  van Dam".
Proof.
  assert (ascii_only "Zoe  van Dam") as Hascii.
  { unfold ascii_only. simpl. repeat constructor. }
  assert (users demo_db !! 4%N = None) as Hid by demo_lookup.
  assert (∀ i u, users demo_db !! i = Some u → User.username u ≠ "zoe")
    as Hfree.
  { apply User_findOne_None. demo_lookup. }
  do 3 (split; [discriminate|]). split; [done|]. split; [done|].
  apply (proj1 signup_avatar (demo_env 4 5000) demo_db "zoe" "pw"
           "Zoe  van Dam"); try done.
Defined.

(** The claim of C6 fails when the username is taken and the password is
    empty: the answer is the one for a missing field. *)
Lemma signup_taken_empty_password :
  (∃ i u, users demo_db !! i = Some u ∧ User.username u = "ann") ∧
  signup (demo_env 4 5000) demo_db (Some "ann") (Some "") (Some "Ann")
  = (demo_db, Response 400 (error "Please provide all fields")) ∧
  (signup (demo_env 4 5000) demo_db (Some "ann") (Some "") (Some "Ann")).2
  ≠ Response 400 (error "Username already taken").
Proof.
  split.
  { exists 1%N, ann. split; [demo_lookup|done]. }
  split; [reflexivity|discriminate].
Qed.

Lemma signup_rejected_witness :
  signup (demo_env 4 5000) demo_db (Some "zoe") None (Some "Zoe")
  = (demo_db, Response 400 (error "Please provide all fields")) ∧
  signup (demo_env 4 5000) demo_db (Some "ann") (Some "pw") (Some "Zoe")
  = (demo_db, Response 400 (error "Username already taken")).
Proof.
  split.
  - apply (proj1 (signup_rejected (demo_env 4 5000) demo_db
                    (Some "zoe") None (Some "Zoe"))).
    right. left. reflexivity.
  - apply (proj2 (signup_rejected (demo_env 4 5000) demo_db
                    (Some "ann") (Some "pw") (Some "Zoe")));
      try reflexivity.
    exists 1%N, ann. split; [demo_lookup|reflexivity].
Defined.

(** *** ToggleLike *)

Lemma toggleLike_frame_witness :
  signed_in (demo_env 0 0) demo_db (Some "Bearer bob") 2 ∧
  tweets demo_db !! 10%N = Some hello ∧
  let s' := (toggleLike (demo_env 0 0) demo_db (Some "Bearer bob") 10).1 in
  status (toggleLike (demo_env 0 0) demo_db (Some "Bearer bob") 10).2 = 200 ∧
  users s' = users demo_db ∧
  (∀ j, j ≠ 10%N → tweets s' !! j = tweets demo_db !! j) ∧
  ∃ tweet', tweets s' !! 10%N = Some tweet' ∧
            same_post hello tweet' ∧
            Tweet.comments tweet' = Tweet.comments hello ∧
            Tweet.likes tweet' = toggle (Tweet.likes hello) 2.
Proof.
  assert (signed_in (demo_env 0 0) demo_db (Some "Bearer bob") 2) as Hin
    by demo_signed_in "bob".
  assert (tweets demo_db !! 10%N = Some hello) as Hid by demo_lookup.
  split; [done|]. split; [done|].
  exact (toggleLike_frame _ _ _ _ _ _ Hin Hid).
Defined.

Lemma toggleLike_twice_witness :
  reachable demo_db ∧
  signed_in (demo_env 0 0) demo_db (Some "Bearer bob") 2 ∧
  tweets demo_db !! 10%N = Some hello ∧
  let r1 := toggleLike (demo_env 0 0) demo_db (Some "Bearer bob") 10 in
  let r2 := toggleLike (demo_env 0 0) r1.1 (Some "Bearer bob") 10 in
  status r1.2 = 200 ∧ status r2.2 = 200 ∧
  ∃ tweet2, tweets r2.1 !! 10%N = Some tweet2 ∧
            r2.2 = Response 200 (Tweet_toJSON 10 tweet2) ∧
            (2%N ∈ Tweet.likes tweet2 ↔ 2%N ∈ Tweet.likes hello).
Proof.
  assert (signed_in (demo_env 0 0) demo_db (Some "Bearer bob") 2) as Hin
    by demo_signed_in "bob".
  assert (tweets demo_db !! 10%N = Some hello) as Hid by demo_lookup.
  split; [exact demo_db_reachable|]. split; [done|]. split; [done|].
  exact (toggleLike_twice _ _ _ _ _ _ _ demo_db_reachable Hin Hin Hid).
Defined.

(** *** Follow and Unfollow *)

Lemma follow_already_following_witness :
  let s := (follow (demo_env 0 0) demo_db (Some "Bearer bob") 1).1 in
  signed_in (demo_env 0 0) s (Some "Bearer bob") 2 ∧
  users s !! 2%N = Some (User.set_following [1%N] bob) ∧
  is_Some (users s !! 1%N) ∧
  follow (demo_env 0 0) s (Some "Bearer bob") 1
  = (s, Response 400 (error "Already following this user")).
Proof.
  intros s.
  assert (signed_in (demo_env 0 0) s (Some "Bearer bob") 2) as Hin
    by demo_signed_in "bob".
  assert (users s !! 2%N = Some (User.set_following [1%N] bob)) as Hme
    by demo_lookup.
  assert (is_Some (users s !! 1%N)) as Hid by (vm_compute; eauto).
  split; [done|]. split; [done|]. split; [done|].
  apply (follow_already_following _ _ _ _ _ _ Hin Hme Hid).
  simpl. apply list_elem_of_here.
Defined.

Lemma follow_unfollow_witness :
  reachable demo_db ∧
  signed_in (demo_env 0 0) demo_db (Some "Bearer bob") 2 ∧
  users demo_db !! 1%N = Some ann ∧
  let r1 := follow (demo_env 0 0) demo_db (Some "Bearer bob") 1 in
  let r2 := unfollow (demo_env 0 0) r1.1 (Some "Bearer bob") 1 in
  status r1.2 = 200 ∧ status r2.2 = 200 ∧
  (∃ u, users r2.1 !! 2%N = Some u ∧ User.following u = []) ∧
  (∃ u, users r2.1 !! 1%N = Some u ∧ User.followers u = 0%Z) ∧
  r2.1 = demo_db.
Proof.
  assert (signed_in (demo_env 0 0) demo_db (Some "Bearer bob") 2) as Hin
    by demo_signed_in "bob".
  assert (users demo_db !! 2%N = Some bob) as Hme by demo_lookup.
  assert (users demo_db !! 1%N = Some ann) as Hid by demo_lookup.
  split; [exact demo_db_reachable|]. split; [done|]. split; [done|].
  apply (follow_unfollow _ _ _ _ _ _ _ _ demo_db_reachable Hin Hin Hme Hid).
  simpl. apply not_elem_of_nil.
Defined.

(** *** CreateTweet *)

(** C8: the code at the failing input. Signup has let in the user whose
    name is one space, with the empty avatar label that line 114 computes
    for that name; the tweet this signed-in user posts with non-empty
    content under a fresh id does not pass the [required] of line 46, and
    CreateTweet answers 500 and stores nothing, where the claim has it
    produce a tweet with the name, handle and avatar of the user. *)
Lemma createTweet_empty_avatar :
  reachable demo_db ∧
  users demo_db !! 3%N = Some (User.mk "sp" "$2a$10$pw" " " "" "" [] 0) ∧
  signed_in (demo_env 11 5000) demo_db (Some "Bearer sp") 3 ∧
  tweets demo_db !! 11%N = None ∧
  createTweet (demo_env 11 5000) demo_db (Some "Bearer sp") (Some "hi") None
  = (demo_db, Response 500 (error "Server error")).
Proof.
  split; [exact demo_db_reachable|]. split; [demo_lookup|].
  split; [demo_signed_in "sp"|]. split; demo_lookup.
Qed.

Lemma createTweet_snapshot_witness :
  reachable demo_db ∧
  signed_in (demo_env 11 5000) demo_db (Some "Bearer ann") 1 ∧
  users demo_db !! 1%N = Some ann ∧
  tweets demo_db !! 11%N = None ∧
  ∃ tweet,
    createTweet (demo_env 11 5000) demo_db (Some "Bearer ann") (Some "hi")
      None
    = (State (users demo_db) (<[11%N := tweet]> (tweets demo_db)),
       Response 201 (Tweet_toJSON 11 tweet)) ∧
    Tweet.author tweet = "Ann Lee" ∧
    Tweet.handle tweet = "@ann" ∧
    Tweet.avatar tweet = "AL" ∧
    ∀ l, ∃ tweet',
      tweets (run (createTweet (demo_env 11 5000) demo_db
                     (Some "Bearer ann") (Some "hi") None).1 l)
        !! 11%N = Some tweet' ∧
      Tweet.author tweet' = Tweet.author tweet ∧
      Tweet.handle tweet' = Tweet.handle tweet ∧
      Tweet.avatar tweet' = Tweet.avatar tweet.
Proof.
  assert (signed_in (demo_env 11 5000) demo_db (Some "Bearer ann") 1) as Hin
    by demo_signed_in "ann".
  assert (users demo_db !! 1%N = Some ann) as Hu by demo_lookup.
  assert (tweets demo_db !! 11%N = None) as Hfresh by demo_lookup.
  split; [exact demo_db_reachable|]. do 3 (split; [done|]).
  apply (createTweet_snapshot (demo_env 11 5000) demo_db (Some "Bearer ann")
           "hi" None 1 ann demo_db_reachable Hin Hu); done.
Defined.

Lemma retweets_zero_witness :
  reachable demo_db ∧ tweets demo_db !! 10%N = Some hello ∧
  Tweet.retweets hello = 0%Z.
Proof.
  assert (tweets demo_db !! 10%N = Some hello) as Hid by demo_lookup.
  split; [exact demo_db_reachable|]. split; [done|].
  exact (retweets_zero demo_db 10 hello demo_db_reachable Hid).
Defined.

(** * Further properties of the handlers *)

(** ** The authentication middleware *)

Lemma authenticate_cases e s authorization next :
  (∃ userId user, signed_in e s authorization userId ∧
                  users s !! userId = Some user ∧
                  authenticate e s authorization next = next userId user) ∨
  ((∀ userId, ¬ signed_in e s authorization userId) ∧
   ∃ msg, authenticate e s authorization next = (s, Response 401 (error msg)) ∧
          msg ∈ ["Unauthorized"; "Invalid token"; "User not found"]).
Proof.
  unfold authenticate.
  destruct (bearer authorization) as [token|] eqn:Hb; simpl.
  - destruct token as [|c token]; simpl.
    + right. split.
      * intros userId (token & Ht & Hne & _). by simplify_eq.
      * eexists. split; [done|]. set_solver.
    + destruct (jwt_verify e (String c token)) as [userId|] eqn:Hv.
      * destruct (users s !! userId) as [user|] eqn:Hu.
        -- left. exists userId, user. split; [|done].
           exists (String c token). by rewrite Hu.
        -- right. split.
           ++ intros userId' (token' & Ht & _ & Hv' & [u Hu']).
              by simplify_eq.
           ++ eexists. split; [done|]. set_solver.
      * right. split.
        -- intros userId' (token' & Ht & _ & Hv' & _). by simplify_eq.
        -- eexists. split; [done|]. set_solver.
  - right. split.
    + intros userId (token & Ht & _). congruence.
    + eexists. split; [done|]. set_solver.
Qed.

(** X1: a request to a route behind [authenticate] is answered 401 exactly
    when its Authorization header does not sign in a stored user; it then
    leaves the database as it was, with one of the three messages of the
    middleware. *)
Theorem protected_401 e s r authorization :
  protected_header r = Some authorization →
  (status (serve e s r).2 = 401 ↔
   ∀ userId, ¬ signed_in e s authorization userId) ∧
  (status (serve e s r).2 = 401 →
   (serve e s r).1 = s ∧
   ∃ msg, body (serve e s r).2 = error msg ∧
          msg ∈ ["Unauthorized"; "Invalid token"; "User not found"]).
Proof.
  intros Hr.
  assert (∀ next,
    (∀ userId user, status (next userId user).2 ≠ 401) →
    serve e s r = authenticate e s authorization next →
    (status (serve e s r).2 = 401 ↔
     ∀ userId, ¬ signed_in e s authorization userId) ∧
    (status (serve e s r).2 = 401 →
     (serve e s r).1 = s ∧
     ∃ msg, body (serve e s r).2 = error msg ∧
            msg ∈ ["Unauthorized"; "Invalid token"; "User not found"]))
    as Hgen.
  { intros next Hnext ->.
    destruct (authenticate_cases e s authorization next)
      as [(userId & user & Hin & _ & ->)|[Hno (msg & -> & Hmsg)]].
    - split; [split|]; intros H; [by destruct (Hnext userId user)| |
        by destruct (Hnext userId user)].
      by destruct (H userId).
    - simpl. split; [done|]. intros _. split; [done|]. by exists msg. }
  destruct r; simplify_eq/=.
  - eapply Hgen; [|reflexivity]. intros userId user. simpl.
    unfold server_error, Tweet_save_new. by repeat case_match.
  - eapply Hgen; [|reflexivity]. intros userId user. simpl.
    by repeat case_match.
  - eapply Hgen; [|reflexivity]. intros userId user. simpl.
    unfold server_error. by repeat case_match.
  - eapply Hgen; [|reflexivity]. intros userId user. simpl.
    unfold server_error. by repeat case_match.
  - eapply Hgen; [|reflexivity]. intros userId user. simpl.
    by repeat case_match.
Qed.

(** ** Saves that the store rejects *)

Ltac handlers_io :=
  unfold serve_io, signup_io, createTweet_io, toggleLike_io, follow_io,
    unfollow_io, addComment_io, save.

(** When the saves go through, the database is the one of the handlers
    above; when the tweet is read again too, so is the answer. *)
Lemma serve_io_saves_ok o e s r :
  saves_ok o → (serve_io o e s r).1 = (serve e s r).1.
Proof.
  intros [H1 H2]. destruct r; try done; handlers_io; handlers;
    rewrite ?H1, ?H2; repeat case_match; simplify_eq/=; done.
Qed.

Lemma serve_io_all_ok e s r : serve_io all_ok e s r = serve e s r.
Proof.
  destruct r; try done; handlers_io; handlers; simpl;
    repeat case_match; simplify_eq/=; done.
Qed.

Lemma run_io_saves_ok l s :
  Forall (λ x, saves_ok x.1.1) l → run_io s l = run s (without_outcomes l).
Proof.
  revert s. induction l as [|[[o e] r] l IH]; intros s Hl; [done|].
  apply Forall_cons in Hl as [Ho Hl]. simpl.
  by rewrite (serve_io_saves_ok o e s r Ho), IH.
Qed.

(** X2: whatever saves the store rejects, a request that is answered 400,
    401 or 404, and any request to Login, ListTweets, ListUserTweets,
    GetFollowing or GetProfile, leaves the database as it was. *)
Theorem serve_unchanged o e s r :
  status (serve_io o e s r).2 = 400 ∨ status (serve_io o e s r).2 = 401 ∨
  status (serve_io o e s r).2 = 404 ∨ read_only r = true →
  (serve_io o e s r).1 = s.
Proof.
  intros H. destruct r; revert H; handlers_io; handlers;
    repeat case_match; simplify_eq/=; try done;
    intros [?|[?|[?|?]]]; done.
Qed.

(** Line 74 on a header made of two words. *)
Lemma split_no_blank (w : string) :
  " "%char ∉ String.list_ascii_of_string w → JS.split " " w = [w].
Proof.
  induction w as [|c w IH]; simpl; [done|]. intros Hw.
  apply not_elem_of_cons in Hw as [Hc Hw]. rewrite decide_False by done.
  by rewrite IH.
Qed.

Lemma split_append_blank (w rest : string) :
  " "%char ∉ String.list_ascii_of_string w →
  JS.split " " (w +:+ String " " rest) = w :: JS.split " " rest.
Proof.
  induction w as [|c w IH]; intros Hw.
  - done.
  - apply not_elem_of_cons in Hw as [Hc Hw].
    change (String c w +:+ String " " rest)
      with (String c (w +:+ String " " rest)).
    simpl. rewrite decide_False by done. by rewrite IH.
Qed.

(** X3: the middleware takes the second word of the Authorization header
    and does not look at the first: whatever the scheme word, a header
    [scheme token] without other spaces carries [token], and a header of one
    word carries none (the request is then answered 401 "Unauthorized"). *)
Theorem bearer_second_word (scheme token : string) :
  " "%char ∉ String.list_ascii_of_string scheme →
  " "%char ∉ String.list_ascii_of_string token →
  bearer (Some (scheme +:+ String " " token)) = Some token ∧
  bearer (Some token) = None ∧
  ∀ e s next,
    authenticate e s (Some token) next
    = (s, Response 401 (error "Unauthorized")).
Proof.
  intros Hs Ht. unfold authenticate, bearer. simpl.
  rewrite (split_append_blank _ _ Hs), !(split_no_blank _ Ht). done.
Qed.

(** ** Signup and Login *)

Lemma User_findOne_unique us username i u :
  us !! i = Some u → User.username u = username →
  (∀ j v, us !! j = Some v → User.username v = username → j = i) →
  User_findOne us username = Some (i, u).
Proof.
  intros Hi Hu Huniq.
  destruct (User_findOne us username) as [[j v]|] eqn:Hf.
  - apply User_findOne_Some in Hf as [Hj Hv].
    specialize (Huniq j v Hj Hv). by simplify_eq.
  - rewrite User_findOne_None in Hf. by destruct (Hf i u Hi).
Qed.

(** A user that one request adds is stored under the generated id, and no
    user stored before has its username. *)
Lemma serve_user_fresh e s r i u' :
  users s !! i = None → users (serve e s r).1 !! i = Some u' →
  i = gen_id e ∧ ∀ j v, users s !! j = Some v →
                        User.username v ≠ User.username u'.
Proof.
  intros Hi. destruct r; handlers; repeat case_match; simplify_eq/=;
    try congruence.
  all: rewrite ?lookup_alter, ?lookup_insert.
  all: repeat case_decide; simplify_eq/=; rewrite ?Hi; simpl; try done.
  intros ?. simplify_eq/=. split; [done|].
  by apply User_findOne_None.
Qed.

(** One request keeps the usernames apart. *)
Lemma usernames_unique_step e s r :
  usernames_unique s → usernames_unique (serve e s r).1.
Proof.
  intros IH i j u' v' Hi Hj Heq.
  destruct (users s !! i) as [u|] eqn:Hsi;
    destruct (users s !! j) as [v|] eqn:Hsj.
  - destruct (serve_user_Some e s r i u Hsi) as (u2 & H2 & (Hu & _) & _).
    destruct (serve_user_Some e s r j v Hsj) as (v2 & H3 & (Hv & _) & _).
    simplify_eq. apply (IH i j u v Hsi Hsj). congruence.
  - destruct (serve_user_Some e s r i u Hsi) as (u2 & H2 & (Hu & _) & _).
    destruct (serve_user_fresh e s r j v' Hsj Hj) as [_ Hfresh].
    simplify_eq. destruct (Hfresh i u Hsi). congruence.
  - destruct (serve_user_Some e s r j v Hsj) as (v2 & H3 & (Hv & _) & _).
    destruct (serve_user_fresh e s r i u' Hsi Hi) as [_ Hfresh].
    simplify_eq. destruct (Hfresh j v Hsj). congruence.
  - destruct (serve_user_fresh e s r i u' Hsi Hi) as [-> _].
    by destruct (serve_user_fresh e s r j v' Hsj Hj) as [-> _].
Qed.

Lemma reachable_usernames s : reachable s → usernames_unique s.
Proof.
  revert s. apply (reachable_invariant usernames_unique); [done|].
  intros e s r. apply usernames_unique_step.
Qed.

(** X4: in every reachable database the username identifies the user: two
    stored users with the same username are the same document. *)
Theorem username_unique s i j u v :
  reachable s →
  users s !! i = Some u → users s !! j = Some v →
  User.username u = User.username v → i = j.
Proof.
  intros Hr. revert s Hr i j u v.
  apply (reachable_invariant usernames_unique).
  - by intros i j u v Hi.
  - intros e s r IH. by apply usernames_unique_step.
Qed.

(** X5: Login never changes the database. In a reachable database, for the
    username of a stored user it answers 200 with that user's session object
    when [bcrypt.compare] accepts the password against the stored hash, and
    401 "Invalid credentials" when it does not; for a username that no stored
    user has it answers the same 401. *)
Theorem login_answer e s username password :
  reachable s →
  (∀ i user, users s !! i = Some user → User.username user = username →
     login e s username password
     = (s, if bcrypt_compare e password (User.password user)
           then Response 200
                  (JObject [("user", session_toJSON e i user);
                            ("message", JString "Login successful")])
           else Response 401 (error "Invalid credentials"))) ∧
  ((∀ i user, users s !! i = Some user → User.username user ≠ username) →
     login e s username password
     = (s, Response 401 (error "Invalid credentials"))).
Proof.
  intros Hr. unfold login. split.
  - intros i user Hi Hu.
    rewrite (User_findOne_unique _ _ i user Hi Hu).
    + by case_match.
    + intros j v Hj Hv. apply (reachable_usernames s Hr j i v user Hj Hi).
      congruence.
  - intros Hno. apply User_findOne_None in Hno. by rewrite Hno.
Qed.

(** X6: after a Signup that succeeds, a Login with the same username and
    password, when [bcrypt.compare] accepts the password against the hash
    that Signup stored, answers 200 with the id, username, name and avatar
    of the new user, and leaves the database as Signup left it. *)
Theorem signup_then_login e1 e2 s username password name :
  username ≠ "" → password ≠ "" → name ≠ "" →
  bcrypt_hash e1 password ≠ "" →
  (∀ i u, users s !! i = Some u → User.username u ≠ username) →
  users s !! gen_id e1 = None →
  bcrypt_compare e2 password (bcrypt_hash e1 password) = true →
  let r1 := signup e1 s (Some username) (Some password) (Some name) in
  status r1.2 = 200 ∧
  login e2 r1.1 username password
  = (r1.1,
     Response 200
       (JObject
          [("user",
            JObject [("_id", JObjectId (gen_id e1));
                     ("username", JString username);
                     ("name", JString name);
                     ("avatar", JString (avatar name));
                     ("token", JString (jwt_sign e2 (gen_id e1)))]);
           ("message", JString "Login successful")])).
Proof.
  intros Hu Hp Hn Hh Hfree Hid Hcmp. unfold signup.
  destruct username; [done|]. destruct password; [done|].
  destruct name; [done|]. simpl.
  pose proof Hfree as Hfree'. apply User_findOne_None in Hfree'.
  rewrite Hfree'. unfold User_save_new, User_validate, required. simpl.
  rewrite Hfree', Hid, !bool_decide_eq_true_2 by done. simpl.
  split; [done|]. unfold login. simpl.
  match goal with
  | |- context [User_findOne (<[?i := ?u]> ?us) ?n] =>
      rewrite (User_findOne_unique (<[i := u]> us) n i u)
  end.
  - cbn [User.password]. by rewrite Hcmp.
  - apply lookup_insert_eq.
  - done.
  - intros j v Hj Hv. rewrite lookup_insert in Hj.
    case_decide; [done|]. by destruct (Hfree j v Hj).
Qed.

(** ** ListUserTweets *)

(** X7: ListUserTweets answers 200 with exactly the stored tweets whose
    [userId] is the given id, each once, newest first, and leaves the
    database as it was. *)
Theorem listUserTweets_filtered (s : state) (id : ObjectId) :
  ∃ l, listUserTweets s id = (s, Response 200 (tweets_toJSON l)) ∧
       (∀ i t, (i, t) ∈ l ↔ tweets s !! i = Some t ∧ Tweet.userId t = id) ∧
       NoDup l ∧ StronglySorted newer_first l.
Proof.
  eexists. split; [done|]. unfold Tweet_find_sorted. split; [|split].
  - intros i t. rewrite merge_sort_Permutation, list_elem_of_filter.
    rewrite elem_of_map_to_list. simpl. tauto.
  - rewrite merge_sort_Permutation. apply NoDup_filter, NoDup_map_to_list.
  - apply StronglySorted_merge_sort; apply _.
Qed.

(** ** AddComment *)

(** X8: an AddComment by a signed-in user with non-empty content on a stored
    tweet answers 200 with the updated tweet; it appends one comment that
    carries the id, name, username and avatar of the user, the content and
    the time, and changes nothing else: the likes and the other fields of the
    tweet, the other tweets and the users are the same. *)
Theorem addComment_appends e s authorization id content userId user tweet :
  signed_in e s authorization userId →
  users s !! userId = Some user →
  tweets s !! id = Some tweet →
  content ≠ "" →
  ∃ tweet',
    addComment e s authorization id (Some content)
    = (State (users s) (<[id := tweet']> (tweets s)),
       Response 200 (Tweet_toJSON id tweet')) ∧
    Tweet.comments tweet'
    = Tweet.comments tweet
      ++ [Comment.mk userId (User.name user) (User.username user)
            (User.avatar user) content (date_now e)] ∧
    Tweet.likes tweet' = Tweet.likes tweet ∧
    same_post tweet tweet'.
Proof.
  intros (user' & Hu' & Hauth)%authenticate_signed_in Hu Hid Hc.
  simplify_eq. unfold addComment. rewrite Hauth.
  destruct content as [|c content]; [done|]. simpl. rewrite Hid.
  unfold Tweet_save_comments. simpl. rewrite lookup_alter_eq, Hid. simpl.
  match goal with
  | |- context [Response 200 (Tweet_toJSON id ?t)] => exists t
  end.
  split; [|by repeat split].
  do 2 f_equal. apply map_eq. intros j.
  rewrite lookup_alter, lookup_insert. case_decide; [|done].
  simplify_eq. by rewrite Hid.
Qed.

(** X9: for a signed-in user, AddComment checks the content before it looks
    for the tweet: without content it answers 400 "Content is required"
    whether the tweet exists or not, and with content on an id that no tweet
    has it answers 404 "Tweet not found"; the database is unchanged. *)
Theorem addComment_rejected e s authorization id content userId :
  signed_in e s authorization userId →
  (JS.falsy content = true →
   addComment e s authorization id content
   = (s, Response 400 (error "Content is required"))) ∧
  (JS.falsy content = false → tweets s !! id = None →
   addComment e s authorization id content
   = (s, Response 404 (error "Tweet not found"))).
Proof.
  intros (user & _ & Hauth)%authenticate_signed_in.
  unfold addComment. rewrite Hauth. split.
  - by intros ->.
  - by intros -> ->.
Qed.

(** ** What no request does *)

Lemma serve_tweet_comments e s r i t :
  tweets s !! i = Some t →
  ∃ t', tweets (serve e s r).1 !! i = Some t' ∧
        Tweet.comments t `prefix_of` Tweet.comments t'.
Proof.
  intros Hi. destruct r; handlers; repeat case_match; simplify_eq/=;
    try (by exists t).
  all: rewrite ?lookup_alter, ?lookup_insert.
  all: repeat case_decide; simplify_eq/=; rewrite ?Hi; simpl.
  all: eexists; split; [done|]; simpl; try done.
  all: by apply prefix_app_r.
Qed.

(** X10: a stored tweet is never deleted or edited: after any requests it is
    still stored under its id with the same userId, author, handle, avatar,
    content, image, retweets and createdAt, and the comments it had are the
    first of the comments it has. *)
Theorem tweet_never_edited (l : list (env * request)) s i t :
  tweets s !! i = Some t →
  ∃ t', tweets (run s l) !! i = Some t' ∧ same_post t t' ∧
        Tweet.comments t `prefix_of` Tweet.comments t'.
Proof.
  revert s t. induction l as [|[e r] l IH]; intros s t Hi; simpl.
  - exists t. split; [done|]. split; [apply same_post_refl|done].
  - destruct (serve_tweet_Some e s r i t Hi) as (t1 & H1 & Hs1 & _).
    destruct (serve_tweet_comments e s r i t Hi) as (t1' & H1' & Hp1).
    simplify_eq.
    destruct (IH _ _ H1) as (t2 & H2 & Hs2 & Hp2). exists t2.
    split; [done|]. split; [by apply (same_post_trans _ t1)|].
    by trans (Tweet.comments t1).
Qed.

(** X11: a stored user is never deleted and its profile is never edited:
    after any requests it is still stored under its id with the same
    username, password hash, name, avatar and bio. *)
Theorem user_never_edited (l : list (env * request)) s i u :
  users s !! i = Some u →
  ∃ u', users (run s l) !! i = Some u' ∧ same_account u u'.
Proof.
  revert s u. induction l as [|[e r] l IH]; intros s u Hi; simpl.
  - exists u. split; [done|]. by repeat split.
  - destruct (serve_user_Some e s r i u Hi) as (u1 & H1 & Hs1 & _).
    destruct (IH _ _ H1) as (u2 & H2 & Hs2). exists u2.
    split; [done|]. unfold same_account in *. intuition congruence.
Qed.

(** ** Follow, Unfollow and GetFollowing *)

Lemma or0_id (x : Z) : JS.or0 x = x.
Proof. unfold JS.or0. by case_decide. Qed.

(** What one request can do to the collection of users. *)
Lemma serve_users_cases e s r :
  users (serve e s r).1 = users s ∨
  (∃ u, users s !! gen_id e = None ∧
        User.following u = [] ∧ User.followers u = 0%Z ∧
        users (serve e s r).1 = <[gen_id e := u]> (users s)) ∨
  (∃ me id cu tgt,
      users s !! me = Some cu ∧ users s !! id = Some tgt ∧
      (id ∉ User.following cu) ∧
      users (serve e s r).1
      = alter (User.set_followers (User.followers tgt + 1)) id
          (alter (User.set_following (User.following cu ++ [id])) me
             (users s))) ∨
  (∃ me id cu tgt k,
      users s !! me = Some cu ∧ users s !! id = Some tgt ∧
      JS.indexOf (User.following cu) id = Some k ∧
      users (serve e s r).1
      = alter (User.set_followers (0 `max` (User.followers tgt - 1))%Z) id
          (alter (User.set_following (delete k (User.following cu))) me
             (users s))).
Proof.
  destruct r; handlers; repeat case_match; simplify_eq/=; try by left.
  - right. left. eexists. by repeat split.
  - right. right. left. eexists _, _, _, _. rewrite or0_id.
    repeat split; try done. by apply includes_false.
  - right. right. right. eexists _, _, _, _, _. rewrite or0_id.
    by repeat split.
Qed.

Lemma delete_elem_of `{EqDecision A} (l : list A) k x y :
  NoDup l → l !! k = Some x → y ∈ delete k l ↔ y ∈ l ∧ y ≠ x.
Proof.
  intros Hl Hk. rewrite delete_take_drop.
  rewrite <-(take_drop_middle l k x Hk) in Hl at 1.
  rewrite <-(take_drop_middle l k x Hk) at 3.
  apply NoDup_app in Hl as (_ & H2 & H3). apply NoDup_cons in H3 as [H3 _].
  rewrite !elem_of_app, elem_of_cons. split.
  - intros [Hy|Hy]; (split; [tauto|]); intros ->; [|done].
    specialize (H2 x Hy). rewrite not_elem_of_cons in H2. tauto.
  - tauto.
Qed.

(** One request keeps the following lists well formed. *)
Lemma following_ok_step e s r : following_ok s → following_ok (serve e s r).1.
Proof.
  intros IH i u' Hi.
  assert (∀ j, is_Some (users s !! j) → is_Some (users (serve e s r).1 !! j))
    as Hkeep.
  { intros j [v Hj].
    destruct (serve_user_Some e s r j v Hj) as (v' & Hv' & _). by eexists. }
  destruct (serve_users_cases e s r)
    as [Hsame|[(u & Hid & Hf & _ & Hs)|
        [(me & id & cu & tgt & Hme & Htgt & Hnot & Hs)|
         (me & id & cu & tgt & k & Hme & Htgt & Hk & Hs)]]].
  - rewrite Hsame in Hi. destruct (IH i u' Hi) as [? Hin].
    split; [done|]. intros j Hj. apply Hkeep, Hin, Hj.
  - rewrite Hs, lookup_insert in Hi. case_decide; simplify_eq.
    + rewrite Hf. split; [apply NoDup_nil_2|]. by intros j ?%elem_of_nil.
    + destruct (IH i u' Hi) as [? Hin].
      split; [done|]. intros j Hj. apply Hkeep, Hin, Hj.
  - rewrite Hs, !lookup_alter in Hi.
    destruct (IH me cu Hme) as [Hnd Hin].
    repeat case_decide; simplify_eq; rewrite ?Hme, ?Htgt in Hi;
      simplify_eq/=.
    + split.
      * apply NoDup_app. split; [done|]. split; [|apply NoDup_singleton].
        by intros j Hj ->%list_elem_of_singleton.
      * intros j [Hj| ->%list_elem_of_singleton]%elem_of_app;
          apply Hkeep; eauto.
    + destruct (IH _ _ Htgt) as [? Hin'].
      split; [done|]. intros j Hj. apply Hkeep, Hin', Hj.
    + split.
      * apply NoDup_app. split; [done|]. split; [|apply NoDup_singleton].
        by intros j Hj ->%list_elem_of_singleton.
      * intros j [Hj| ->%list_elem_of_singleton]%elem_of_app;
          apply Hkeep; eauto.
    + destruct (IH i u' Hi) as [? Hin'].
      split; [done|]. intros j Hj. apply Hkeep, Hin', Hj.
  - rewrite Hs, !lookup_alter in Hi.
    destruct (IH me cu Hme) as [Hnd Hin].
    assert (NoDup (delete k (User.following cu))) as Hnd'
      by (eapply sublist_NoDup; [done|apply sublist_delete]).
    repeat case_decide; simplify_eq; rewrite ?Hme, ?Htgt in Hi;
      simplify_eq/=.
    + split; [done|].
      intros j Hj%list_elem_of_delete_inv. apply Hkeep; eauto.
    + destruct (IH _ _ Htgt) as [? Hin'].
      split; [done|]. intros j Hj. apply Hkeep, Hin', Hj.
    + split; [done|].
      intros j Hj%list_elem_of_delete_inv. apply Hkeep; eauto.
    + destruct (IH i u' Hi) as [? Hin'].
      split; [done|]. intros j Hj. apply Hkeep, Hin', Hj.
Qed.

Lemma reachable_following s : reachable s → following_ok s.
Proof.
  revert s. apply (reachable_invariant following_ok); [done|].
  intros e s r. apply following_ok_step.
Qed.

(** X12: in every reachable database the [following] list of a stored user
    holds no id twice, and every id it holds is the id of a stored user. *)
Theorem following_well_formed s i u :
  reachable s → users s !! i = Some u →
  NoDup (User.following u) ∧
  ∀ j, j ∈ User.following u → is_Some (users s !! j).
Proof.
  intros Hr. revert s Hr i u.
  apply (reachable_invariant following_ok).
  - by intros i u Hi.
  - intros e s r IH. by apply following_ok_step.
Qed.

(** X13: a Follow by the signed-in user [me] of a stored user [id] that [me]
    does not follow yet answers 200 with the new following list; it appends
    [id] to the following list of [me], adds 1 to the followers counter of
    [id], and changes nothing else: the tweets, the other users and the
    other fields of the two users are the same. *)
Theorem follow_frame e s authorization me id currentUser target :
  signed_in e s authorization me →
  users s !! me = Some currentUser →
  users s !! id = Some target →
  id ∉ User.following currentUser →
  let r := follow e s authorization id in
  r.2 = Response 200
          (JObject
             [("following", ids_toJSON (User.following currentUser ++ [id]));
              ("followedUsername", JString (User.username target))]) ∧
  tweets r.1 = tweets s ∧
  (∀ j, j ≠ me → j ≠ id → users r.1 !! j = users s !! j) ∧
  (∃ u, users r.1 !! me = Some u ∧ same_account currentUser u ∧
        User.following u = User.following currentUser ++ [id] ∧
        (me ≠ id → User.followers u = User.followers currentUser)) ∧
  (∃ u, users r.1 !! id = Some u ∧ same_account target u ∧
        User.followers u = (User.followers target + 1)%Z ∧
        (me ≠ id → User.following u = User.following target)).
Proof.
  intros Hin Hme Hid Hnot.
  rewrite (follow_signed_in _ _ _ _ _ _ _ Hin Hme Hid Hnot). simpl.
  rewrite or0_id. split; [done|]. split; [done|]. split; [|split].
  - intros j Hj1 Hj2. by rewrite !lookup_alter_ne.
  - rewrite !lookup_alter. repeat case_decide; simplify_eq;
      rewrite Hme; simpl; eexists; by repeat split.
  - rewrite !lookup_alter. repeat case_decide; simplify_eq;
      rewrite ?Hme, ?Hid; simpl; eexists; by repeat split.
Qed.

(** X14: for a signed-in user, Follow and Unfollow of an id that no user has
    answer 404 "User not found", and Unfollow of a stored user that the
    signed-in user does not follow answers 400 "Not following this user";
    the database is unchanged. *)
Theorem unfollow_rejected e s authorization me id currentUser :
  signed_in e s authorization me →
  users s !! me = Some currentUser →
  (users s !! id = None →
   follow e s authorization id
   = (s, Response 404 (error "User not found")) ∧
   unfollow e s authorization id
   = (s, Response 404 (error "User not found"))) ∧
  (is_Some (users s !! id) → id ∉ User.following currentUser →
   unfollow e s authorization id
   = (s, Response 400 (error "Not following this user"))).
Proof.
  intros (user & _ & Hauth)%authenticate_signed_in Hme.
  unfold follow, unfollow. rewrite !Hauth. split.
  - by intros ->.
  - intros [target ->] Hnot%indexOf_None. by rewrite Hme, Hnot.
Qed.

(** X15: in a reachable database, an Unfollow by the signed-in user [me] of
    a stored user [id] that [me] follows answers 200; afterwards [id] is not
    in the following list of [me], the other ids of that list are kept, the
    followers counter of [id] is one less, and the tweets and the other
    users are the same. *)
Theorem unfollow_frame e s authorization me id currentUser target :
  reachable s →
  signed_in e s authorization me →
  users s !! me = Some currentUser →
  users s !! id = Some target →
  id ∈ User.following currentUser →
  let r := unfollow e s authorization id in
  status r.2 = 200 ∧
  tweets r.1 = tweets s ∧
  (∀ j, j ≠ me → j ≠ id → users r.1 !! j = users s !! j) ∧
  (∃ u, users r.1 !! me = Some u ∧ same_account currentUser u ∧
        ∀ j, j ∈ User.following u ↔ j ∈ User.following currentUser ∧ j ≠ id) ∧
  (∃ u, users r.1 !! id = Some u ∧ same_account target u ∧
        User.followers u = (0 `max` (User.followers target - 1))%Z).
Proof.
  intros Hr (user & _ & Hauth)%authenticate_signed_in Hme Hid Hin.
  destruct (reachable_following s Hr me currentUser Hme) as [Hnd _].
  unfold unfollow. rewrite Hauth, Hid, Hme.
  destruct (JS.indexOf (User.following currentUser) id) as [k|] eqn:Hk.
  2: { by apply indexOf_None in Hk. }
  apply indexOf_Some in Hk as [Hk _]. simpl. rewrite or0_id.
  split; [done|]. split; [done|]. split; [|split].
  - intros j Hj1 Hj2. by rewrite !lookup_alter_ne.
  - rewrite !lookup_alter. repeat case_decide; simplify_eq;
      rewrite Hme; simpl; eexists; (split; [done|]); (split; [done|]);
      intros j; by apply delete_elem_of.
  - rewrite !lookup_alter. repeat case_decide; simplify_eq;
      rewrite ?Hme, ?Hid; simpl; eexists; by repeat split.
Qed.

Lemma omap_populate s (l : list ObjectId) :
  (∀ j, j ∈ l → is_Some (users s !! j)) →
  length (omap (populate s) l) = length l ∧
  ∀ k j, l !! k = Some j → omap (populate s) l !! k = populate s j.
Proof.
  induction l as [|i l IH]; intros Hl; [done|].
  destruct (Hl i) as [u Hu]; [by left|].
  destruct IH as [IH1 IH2]; [intros j Hj; apply Hl; by right|].
  assert (populate s i = Some (JObject [("_id", JObjectId i);
            ("username", JString (User.username u));
            ("name", JString (User.name u));
            ("avatar", JString (User.avatar u))])) as Hp.
  { unfold populate. by rewrite Hu. }
  simpl. rewrite Hp. simpl.
  change (list_omap _ _ (populate s) l) with (omap (populate s) l).
  split; [by rewrite IH1|].
  intros [|k] j Hk; simplify_eq/=; [done|]. by apply IH2.
Qed.

(** X16: GetFollowing answers 404 "User not found" for an id that no user
    has. In a reachable database, for a stored user it answers 200 with one
    object per id of the following list, in the same order, made of the
    _id, username, name and avatar of the user followed (no password). *)
Theorem getFollowing_profiles s id :
  reachable s →
  (users s !! id = None →
   getFollowing s id = (s, Response 404 (error "User not found"))) ∧
  (∀ user, users s !! id = Some user →
     ∃ l, getFollowing s id = (s, Response 200 (JArray l)) ∧
          length l = length (User.following user) ∧
          ∀ k j, User.following user !! k = Some j →
            ∃ u, users s !! j = Some u ∧
                 l !! k = Some (JObject
                                  [("_id", JObjectId j);
                                   ("username", JString (User.username u));
                                   ("name", JString (User.name u));
                                   ("avatar", JString (User.avatar u))])).
Proof.
  intros Hr. unfold getFollowing. split; [by intros ->|].
  intros user Hid. rewrite Hid.
  destruct (reachable_following s Hr id user Hid) as [_ Hin].
  destruct (omap_populate s _ Hin) as [Hlen Hk].
  eexists. split; [done|]. split; [done|].
  intros k j Hj. rewrite (Hk k j Hj).
  destruct (Hin j) as [u Hu]; [by eapply list_elem_of_lookup_2|].
  exists u. split; [done|]. unfold populate. by rewrite Hu.
Qed.

(** ** The followers counter *)

Lemma reachable_invariant_strong (P : state → Prop) :
  P empty_db →
  (∀ e s r, reachable s → P s → P (serve e s r).1) →
  ∀ s, reachable s → P s.
Proof.
  intros H0 Hstep s [l ->].
  induction l as [|[e r] l IH] using rev_ind; [done|].
  rewrite run_snoc. apply Hstep; [by exists l|done].
Qed.

Lemma elem_of_follower_ids s id i :
  i ∈ follower_ids s id ↔
  ∃ u, users s !! i = Some u ∧ id ∈ User.following u.
Proof.
  unfold follower_ids. rewrite elem_of_dom. unfold is_Some.
  setoid_rewrite map_lookup_filter_Some. split.
  - intros (u & Hu & Hin). by exists u.
  - intros (u & Hu & Hin). by exists u.
Qed.

(** The users after the two saves of Follow and of Unfollow. *)
Lemma lookup_saved (us : gmap ObjectId User.t) me id l n i :
  alter (User.set_followers n) id (alter (User.set_following l) me us) !! i
  = (λ v, User.mk (User.username v) (User.password v) (User.name v)
            (User.avatar v) (User.bio v)
            (if decide (i = me) then l else User.following v)
            (if decide (i = id) then n else User.followers v)) <$> us !! i.
Proof.
  destruct (decide (i = me)) as [Hme|Hme], (decide (i = id)) as [Hid|Hid];
    subst;
    rewrite ?lookup_alter_eq, ?lookup_alter_ne by done;
    rewrite ?lookup_alter_eq, ?lookup_alter_ne by done;
    by destruct (us !! _) as [[]|].
Qed.

Lemma follower_ids_saved s s' me id cu l n x i :
  users s !! me = Some cu →
  users s'
  = alter (User.set_followers n) id
      (alter (User.set_following l) me (users s)) →
  i ∈ follower_ids s' x ↔
  if decide (i = me) then x ∈ l else i ∈ follower_ids s x.
Proof.
  intros Hme Hs. rewrite elem_of_follower_ids, Hs, lookup_saved.
  case_decide as Hi; simplify_eq.
  - rewrite Hme. simpl. split.
    + intros (u & Hu & Hx). by simplify_eq/=.
    + intros Hx. eexists. by split.
  - rewrite elem_of_follower_ids.
    destruct (users s !! i) as [v|] eqn:Hv; simpl.
    + split.
      * intros (u & Hu & Hx). simplify_eq/=. by exists v.
      * intros (u & Hu & Hx). simplify_eq. eexists. by split.
    + split; by intros (u & ? & _).
Qed.

Lemma follower_ids_self s me cu x :
  users s !! me = Some cu → me ∈ follower_ids s x ↔ x ∈ User.following cu.
Proof.
  intros Hme. rewrite elem_of_follower_ids, Hme. split.
  - intros (u & ? & Hx). by simplify_eq.
  - intros Hx. by exists cu.
Qed.

Lemma followers_saved (us : gmap ObjectId User.t) me id l n i v' :
  alter (User.set_followers n) id (alter (User.set_following l) me us) !! i
  = Some v' →
  ∃ v, us !! i = Some v ∧
       User.followers v' = if decide (i = id) then n else User.followers v.
Proof.
  rewrite lookup_saved. intros (v & Hv & ->)%fmap_Some. by exists v.
Qed.

(** Without a rejected save, the counter counts the followers. *)
Lemma reachable_followers_counted s id u :
  reachable s → users s !! id = Some u →
  User.followers u = Z.of_nat (follower_count s id).
Proof.
  intros Hr. revert s Hr id u. unfold follower_count.
  apply (reachable_invariant_strong
           (λ s, ∀ id u, users s !! id = Some u →
                         User.followers u
                         = Z.of_nat (size (follower_ids s id)))).
  { done. }
  intros e s r Hr IH i u' Hi.
  destruct (serve_users_cases e s r)
    as [Hsame|[(u & Hid & Hf & Hn & Hs)|
        [(me & id & cu & tgt & Hme & Htgt & Hnot & Hs)|
         (me & id & cu & tgt & k & Hme & Htgt & Hk & Hs)]]].
  - unfold follower_ids. rewrite Hsame in *. by apply IH.
  - assert (∀ x, follower_ids (serve e s r).1 x = follower_ids s x) as Hset.
    { intros x. apply set_eq. intros j.
      rewrite !elem_of_follower_ids, Hs, lookup_insert.
      case_decide; simplify_eq.
      - split.
        + intros (v & ? & Hx). simplify_eq. rewrite Hf in Hx.
          by apply elem_of_nil in Hx.
        + intros (v & ? & _). congruence.
      - done. }
    rewrite Hset. rewrite Hs, lookup_insert in Hi.
    case_decide; simplify_eq; [|by apply IH].
    rewrite Hn. assert (follower_ids s (gen_id e) = ∅) as ->; [|done].
    apply set_eq. intros j. rewrite elem_of_follower_ids.
    split; [|by intros ?%elem_of_empty].
    intros (v & Hv & Hx).
    destruct (reachable_following s Hr j v Hv) as [_ Hin].
    destruct (Hin _ Hx). congruence.
  - rewrite Hs in Hi.
    apply followers_saved in Hi as (v & Hv & ->).
    pose proof (λ j, follower_ids_saved s _ me id cu _ _ i j Hme Hs) as Hset.
    case_decide; simplify_eq.
    + assert (follower_ids (serve e s r).1 id
              = {[me]} ∪ follower_ids s id) as ->.
      { apply set_eq. intros j.
        rewrite Hset, elem_of_union, elem_of_singleton.
        case_decide; subst; [|tauto].
        rewrite elem_of_app, list_elem_of_singleton. intuition. }
      rewrite size_union, size_singleton, (IH id v Hv); [lia|].
      apply disjoint_singleton_l.
      by rewrite (follower_ids_self s me cu id Hme).
    + assert (follower_ids (serve e s r).1 i = follower_ids s i) as ->;
        [|by apply IH].
      apply set_eq. intros j. rewrite Hset.
      case_decide; subst; [|done].
      rewrite (follower_ids_self s me cu i Hme).
      rewrite elem_of_app, list_elem_of_singleton. intuition congruence.
  - rewrite Hs in Hi.
    apply followers_saved in Hi as (v & Hv & ->).
    pose proof (λ j, follower_ids_saved s _ me id cu _ _ i j Hme Hs) as Hset.
    destruct (reachable_following s Hr me cu Hme) as [Hnd _].
    apply indexOf_Some in Hk as [Hk _].
    pose proof (λ y, delete_elem_of (User.following cu) k id y Hnd Hk)
      as Hdel.
    case_decide; simplify_eq.
    + assert (me ∈ follower_ids s id) as Hin.
      { apply elem_of_follower_ids. exists cu. split; [done|].
        by eapply list_elem_of_lookup_2. }
      assert (follower_ids (serve e s r).1 id
              = follower_ids s id ∖ {[me]}) as ->.
      { apply set_eq. intros j.
        rewrite Hset, elem_of_difference, elem_of_singleton.
        case_decide; subst; [rewrite Hdel|]; intuition. }
      apply singleton_subseteq_l in Hin as Hsub.
      rewrite size_difference by done. rewrite size_singleton.
      assert (0 < size (follower_ids s id)).
      { apply subseteq_size in Hsub. rewrite size_singleton in Hsub. lia. }
      rewrite (IH id v Hv). lia.
    + assert (follower_ids (serve e s r).1 i = follower_ids s i) as ->;
        [|by apply IH].
      apply set_eq. intros j. rewrite Hset.
      case_decide; subst; [|done].
      rewrite Hdel, (follower_ids_self s me cu i Hme). intuition congruence.
Qed.

(** X17: in every database reached by requests handled one after the other
    of which the store rejected no save, the followers counter of a stored
    user is the number of stored users whose following list holds its
    id. *)
Theorem followers_counted (l : list (outcome * env * request)) s id u :
  Forall (λ x, saves_ok x.1.1) l → s = run_io empty_db l →
  users s !! id = Some u →
  User.followers u = Z.of_nat (follower_count s id).
Proof.
  intros Hl -> Hu. rewrite (run_io_saves_ok l empty_db Hl) in *.
  apply reachable_followers_counted; [|done].
  by exists (without_outcomes l).
Qed.

Lemma follower_ids_saved_following s s' me cu l x i :
  users s !! me = Some cu →
  users s' = alter (User.set_following l) me (users s) →
  i ∈ follower_ids s' x ↔
  if decide (i = me) then x ∈ l else i ∈ follower_ids s x.
Proof.
  intros Hme Hs. rewrite elem_of_follower_ids, Hs.
  case_decide as Hi; simplify_eq.
  - rewrite lookup_alter_eq, Hme. simpl. split.
    + intros (u & Hu & Hx). by simplify_eq/=.
    + intros Hx. eexists. by split.
  - by rewrite lookup_alter_ne, elem_of_follower_ids.
Qed.

(** X26: when the store rejects the second save of a Follow (by a signed-in
    user, of a stored user not followed yet) and not the first, the answer
    is 500 "Server error" and the first write stays: the id is in the
    following list of the follower, the followers counter of the user
    followed is what it was, and that user has one follower more than
    before, which the counter does not count. *)
Theorem follow_second_save_rejected o e s authorization me id currentUser
    target :
  signed_in e s authorization me →
  users s !! me = Some currentUser →
  users s !! id = Some target →
  id ∉ User.following currentUser →
  save1_ok o = true → save2_ok o = false →
  let r := follow_io o e s authorization id in
  r.2 = Response 500 (error "Server error") ∧
  tweets r.1 = tweets s ∧
  (∃ u, users r.1 !! me = Some u ∧
        User.following u = User.following currentUser ++ [id]) ∧
  (∃ u, users r.1 !! id = Some u ∧
        User.followers u = User.followers target) ∧
  follower_count r.1 id = S (follower_count s id).
Proof.
  intros (user & _ & Hauth)%authenticate_signed_in Hme Hid Hnot H1 H2.
  unfold follow_io. rewrite Hauth, Hid, Hme.
  apply includes_false in Hnot as Hinc. rewrite Hinc, H1, H2. simpl.
  split; [done|]. split; [done|]. split; [|split].
  - rewrite lookup_alter_eq, Hme. by eexists.
  - rewrite lookup_alter. case_decide; simplify_eq; rewrite ?Hme, ?Hid;
      simpl; by eexists.
  - unfold follower_count.
    set (s1 := User_save_following me _ s).
    assert (follower_ids s1 id = {[me]} ∪ follower_ids s id) as ->.
    { apply set_eq. intros j.
      rewrite (follower_ids_saved_following s s1 me currentUser
                 (User.following currentUser ++ [id]) id j Hme eq_refl).
      rewrite elem_of_union, elem_of_singleton.
      case_decide; subst; [|tauto].
      rewrite elem_of_app, list_elem_of_singleton. intuition. }
    rewrite size_union, size_singleton; [done|].
    apply disjoint_singleton_l.
    by rewrite (follower_ids_self s me currentUser id Hme).
Qed.

(** ** Likes *)

(** X18: in a reachable database, a ToggleLike by a signed-in user on a
    stored tweet flips whether that user is among the likes, keeps every
    other user among the likes or out of them, and changes the number of
    likes by exactly one. *)
Theorem toggleLike_flips e s authorization id userId tweet :
  reachable s →
  signed_in e s authorization userId →
  tweets s !! id = Some tweet →
  ∃ tweet',
    tweets (toggleLike e s authorization id).1 !! id = Some tweet' ∧
    (userId ∈ Tweet.likes tweet' ↔ userId ∉ Tweet.likes tweet) ∧
    (∀ j, j ≠ userId →
          j ∈ Tweet.likes tweet' ↔ j ∈ Tweet.likes tweet) ∧
    (if decide (userId ∈ Tweet.likes tweet)
     then S (length (Tweet.likes tweet')) = length (Tweet.likes tweet)
     else length (Tweet.likes tweet') = S (length (Tweet.likes tweet))).
Proof.
  intros Hr Hin Hid.
  rewrite (toggleLike_signed_in _ _ _ _ _ _ Hin Hid). simpl.
  eexists. rewrite lookup_insert_eq. split; [done|]. simpl.
  pose proof (reachable_likes s Hr id tweet Hid) as Hnd.
  unfold toggle.
  destruct (JS.indexOf (Tweet.likes tweet) userId) as [k|] eqn:Hk.
  - apply indexOf_Some in Hk as [Hk _].
    pose proof (λ y, delete_elem_of (Tweet.likes tweet) k userId y Hnd Hk)
      as Hdel.
    assert (userId ∈ Tweet.likes tweet) as Hmem
      by by eapply list_elem_of_lookup_2.
    unfold JS.splice1. split; [|split].
    + rewrite Hdel. tauto.
    + intros j Hj. rewrite Hdel. tauto.
    + rewrite decide_True by done. rewrite length_delete by by eexists.
      apply lookup_lt_Some in Hk. lia.
  - apply indexOf_None in Hk. unfold JS.push. split; [|split].
    + rewrite elem_of_app, list_elem_of_singleton. tauto.
    + intros j Hj. rewrite elem_of_app, list_elem_of_singleton. tauto.
    + rewrite decide_False by done. rewrite length_app. simpl. lia.
Qed.

(** ** Tweets and the users they refer to *)

(** What one request can have done to a tweet that is stored after it. *)
Lemma serve_tweet_cases e s r i t' :
  tweets (serve e s r).1 !! i = Some t' →
  tweets s !! i = Some t' ∨
  (tweets s !! i = None ∧
   ∃ u, users s !! Tweet.userId t' = Some u ∧
        Tweet.author t' = User.name u ∧
        Tweet.handle t' = "@" +:+ User.username u ∧
        Tweet.avatar t' = User.avatar u ∧
        Tweet.likes t' = [] ∧ Tweet.comments t' = []) ∨
  (∃ t userId, tweets s !! i = Some t ∧ is_Some (users s !! userId) ∧
               t' = Tweet.set_likes (toggle (Tweet.likes t) userId) t) ∨
  (∃ t userId u content,
      tweets s !! i = Some t ∧ users s !! userId = Some u ∧
      t' = Tweet.set_comments
             (Tweet.comments t
              ++ [Comment.mk userId (User.name u) (User.username u)
                    (User.avatar u) content (date_now e)]) t).
Proof.
  destruct r; handlers; repeat case_match; simplify_eq/=; try by left.
  all: rewrite ?lookup_alter, ?lookup_insert.
  all: repeat case_decide; simplify_eq/=; try by left.
  - intros ?. simplify_eq/=. right. left. split; [done|].
    eexists. by repeat split.
  - match goal with H : tweets s !! _ = Some _ |- _ => rewrite H end.
    intros ?. simplify_eq/=. right. right. left. eexists _, _.
    by repeat split.
  - match goal with H : tweets s !! _ = Some _ |- _ => rewrite H end.
    intros ?. simplify_eq/=. right. right. right. eexists _, _, _, _.
    by repeat split.
  - match goal with H : tweets s !! _ = Some _ |- _ => rewrite H end.
    intros ?. simplify_eq/=. right. right. right. eexists _, _, _, _.
    by repeat split.
Qed.

Lemma toggle_subseteq (likes : list ObjectId) userId j :
  j ∈ toggle likes userId → j ∈ likes ∨ j = userId.
Proof.
  unfold toggle. destruct (JS.indexOf likes userId) as [k|].
  - intros ?%list_elem_of_delete_inv. by left.
  - unfold JS.push. rewrite elem_of_app, list_elem_of_singleton. tauto.
Qed.

(** X19: in every reachable database a stored tweet refers to stored users
    only, and what it copied from them is what they have now: its author,
    handle and avatar are the name, "@" and the username, and the avatar of
    the stored user [userId]; every id among its likes is the id of a stored
    user; and every comment carries the name, username and avatar of the
    stored user it names. *)
Theorem tweet_refers_to_users s i t :
  reachable s → tweets s !! i = Some t →
  tweet_current s t ∧
  (∀ j, j ∈ Tweet.likes t → is_Some (users s !! j)) ∧
  Forall (comment_current s) (Tweet.comments t).
Proof.
  intros Hr. revert s Hr i t.
  apply (reachable_invariant
           (λ s, ∀ i t, tweets s !! i = Some t →
                        tweet_current s t ∧
                        (∀ j, j ∈ Tweet.likes t → is_Some (users s !! j)) ∧
                        Forall (comment_current s) (Tweet.comments t))).
  { done. }
  intros e s r IH i t' Hi.
  assert (∀ j u, users s !! j = Some u →
                 ∃ u', users (serve e s r).1 !! j = Some u' ∧
                       same_account u u') as Hkeep.
  { intros j u Hj.
    destruct (serve_user_Some e s r j u Hj) as (u' & Hu' & Hsame & _).
    by exists u'. }
  assert (∀ t, tweet_current s t → tweet_current (serve e s r).1 t) as Ht.
  { intros t (u & Hu & Ha & Hh & Hav).
    destruct (Hkeep _ _ Hu) as (u' & Hu' & Hn & _ & Hna & Hava & _).
    exists u'. split; [done|]. by rewrite Hn, Hna, Hava. }
  assert (∀ c, comment_current s c → comment_current (serve e s r).1 c)
    as Hc.
  { intros c (u & Hu & Ha & Hh & Hav).
    destruct (Hkeep _ _ Hu) as (u' & Hu' & Hn & _ & Hna & Hava & _).
    exists u'. split; [done|]. by rewrite Hn, Hna, Hava. }
  assert (∀ j, is_Some (users s !! j) →
               is_Some (users (serve e s r).1 !! j)) as Hs.
  { intros j [u Hu]. destruct (Hkeep _ _ Hu) as (u' & Hu' & _).
    by exists u'. }
  destruct (serve_tweet_cases e s r i t' Hi)
    as [Hold|[(Hnew & u & Hu & Ha & Hh & Hav & Hl & Hcs)|
        [(t & userId & Hold & Huser & ->)|
         (t & userId & u & content & Hold & Hu & ->)]]].
  - destruct (IH i t' Hold) as (H1 & H2 & H3). split; [by apply Ht|].
    split; [by intros j Hj; apply Hs, H2|].
    eapply Forall_impl; [exact H3|exact Hc].
  - split; [apply Ht; by exists u|]. rewrite Hl, Hcs.
    split; [by intros j ?%elem_of_nil|by apply Forall_nil].
  - destruct (IH i t Hold) as (H1 & H2 & H3). split; [by apply Ht|].
    split; [|eapply Forall_impl; [exact H3|exact Hc]].
    intros j [Hj| ->]%toggle_subseteq; apply Hs; [by apply H2|done].
  - destruct (IH i t Hold) as (H1 & H2 & H3). split; [by apply Ht|].
    split; [by intros j Hj; apply Hs, H2|]. simpl.
    apply Forall_app. split; [eapply Forall_impl; [exact H3|exact Hc]|].
    apply Forall_singleton, Hc. by exists u.
Qed.

(** X20: two ToggleLike requests in a row by a signed-in user who is not
    among the likes of a stored tweet (a like, then its removal) leave the
    database exactly as it was. *)
Theorem toggleLike_like_unlike e1 e2 s authorization id userId tweet :
  signed_in e1 s authorization userId →
  signed_in e2 s authorization userId →
  tweets s !! id = Some tweet →
  userId ∉ Tweet.likes tweet →
  let r1 := toggleLike e1 s authorization id in
  let r2 := toggleLike e2 r1.1 authorization id in
  (∃ tweet1, tweets r1.1 !! id = Some tweet1 ∧
             Tweet.likes tweet1 = Tweet.likes tweet ++ [userId]) ∧
  r2.1 = s ∧ r2.2 = Response 200 (Tweet_toJSON id tweet).
Proof.
  intros Hin1 Hin2 Hid Hnot.
  rewrite (toggleLike_signed_in _ _ _ _ _ _ Hin1 Hid). simpl.
  rewrite (toggle_absent _ _ Hnot).
  split; [eexists; by rewrite lookup_insert_eq|].
  match goal with
  | |- context [toggleLike e2 ?s1] =>
      assert (signed_in e2 s1 authorization userId) as Hin2' by done;
      rewrite (toggleLike_signed_in _ _ _ _ _ _ Hin2'
                 (lookup_insert_eq _ _ _))
  end.
  simpl. unfold toggle.
  rewrite (indexOf_push _ _ Hnot), splice1_push, insert_insert_eq.
  assert (Tweet.set_likes (Tweet.likes tweet)
            (Tweet.set_likes (JS.push (Tweet.likes tweet) userId) tweet)
          = tweet) as -> by by destruct tweet.
  rewrite insert_id by done. by destruct s.
Qed.

(** ** CreateTweet and ListTweets *)

Lemma createTweet_stored e s authorization content file userId user :
  signed_in e s authorization userId →
  users s !! userId = Some user →
  User.name user ≠ "" → User.avatar user ≠ "" → content ≠ "" →
  tweets s !! gen_id e = None →
  createTweet e s authorization (Some content) file
  = (State (users s)
       (<[gen_id e :=
            Tweet.mk userId (User.name user) ("@" +:+ User.username user)
              (User.avatar user) content
              ((λ f, "/uploads/" +:+ filename e f) <$> file) [] 0 []
              (date_now e)]> (tweets s)),
     Response 201
       (Tweet_toJSON (gen_id e)
          (Tweet.mk userId (User.name user) ("@" +:+ User.username user)
             (User.avatar user) content
             ((λ f, "/uploads/" +:+ filename e f) <$> file) [] 0 []
             (date_now e)))).
Proof.
  intros (user' & Hu' & Hauth)%authenticate_signed_in Hu Hn Hav Hc Hfresh.
  simplify_eq. unfold createTweet. rewrite Hauth.
  destruct content as [|c content]; [done|]. simpl.
  unfold Tweet_save_new, Tweet_validate, required. simpl.
  rewrite !bool_decide_eq_true_2 by done. simpl. by rewrite Hfresh.
Qed.

(** X21: when a CreateTweet succeeds with a clock later than the creation
    time of every stored tweet, the ListTweets that follows answers with the
    new tweet, without likes or comments, first. *)
Theorem createTweet_listed_first e s authorization content file userId user :
  signed_in e s authorization userId →
  users s !! userId = Some user →
  User.name user ≠ "" → User.avatar user ≠ "" → content ≠ "" →
  tweets s !! gen_id e = None →
  (∀ i t, tweets s !! i = Some t → (Tweet.createdAt t < date_now e)%Z) →
  let r := createTweet e s authorization (Some content) file in
  status r.2 = 201 ∧
  ∃ tweet l,
    tweets r.1 !! gen_id e = Some tweet ∧
    Tweet.likes tweet = [] ∧ Tweet.comments tweet = [] ∧
    Tweet.createdAt tweet = date_now e ∧
    listTweets r.1
    = (r.1, Response 200 (tweets_toJSON ((gen_id e, tweet) :: l))).
Proof.
  intros Hin Hu Hn Hav Hc Hfresh Hlater.
  rewrite (createTweet_stored _ _ _ _ _ _ _ Hin Hu Hn Hav Hc Hfresh). simpl.
  split; [done|]. set (t := Tweet.mk _ _ _ _ _ _ _ _ _ _).
  unfold listTweets, Tweet_find_sorted. simpl. rewrite filter_True.
  set (L := merge_sort newer_first _).
  assert (L ≡ₚ map_to_list (<[gen_id e := t]> (tweets s))) as Hperm
    by apply merge_sort_Permutation.
  assert (StronglySorted newer_first L) as Hsorted
    by (apply StronglySorted_merge_sort; apply _).
  assert ((gen_id e, t) ∈ L) as Hnew.
  { rewrite Hperm. apply elem_of_map_to_list, lookup_insert_eq. }
  exists t. destruct L as [|[j h] L]; [by apply elem_of_nil in Hnew|].
  exists L. rewrite lookup_insert_eq. do 4 (split; [done|]).
  do 4 f_equal. apply elem_of_cons in Hnew as [Hnew|Hnew]; [done|].
  assert ((j, h) ∈ map_to_list (<[gen_id e := t]> (tweets s))) as Hj
    by (rewrite <-Hperm; by left).
  apply elem_of_map_to_list in Hj. rewrite lookup_insert in Hj.
  case_decide; simplify_eq; [done|].
  apply StronglySorted_inv in Hsorted as [_ Hall].
  rewrite Forall_forall in Hall. specialize (Hall _ Hnew).
  unfold newer_first in Hall. simpl in Hall.
  specialize (Hlater j h Hj). lia.
Qed.

(** ** The name of an uploaded file *)

Lemma append_length (s1 s2 : string) :
  String.length (s1 +:+ s2) = String.length s1 + String.length s2.
Proof.
  induction s1 as [|c s1 IH]; [done|].
  change (String c s1 +:+ s2) with (String c (s1 +:+ s2)). simpl.
  by rewrite IH.
Qed.

Lemma append_inj_r (s1 s2 x : string) : s1 +:+ x = s2 +:+ x → s1 = s2.
Proof.
  revert s2. induction s1 as [|c s1 IH]; intros [|d s2] H; [done| | |].
  - apply (f_equal String.length) in H.
    change ("" +:+ x) with x in H. rewrite append_length in H.
    simpl in H. lia.
  - apply (f_equal String.length) in H.
    change ("" +:+ x) with x in H. rewrite append_length in H.
    simpl in H. lia.
  - change (String c (s1 +:+ x) = String d (s2 +:+ x)) in H.
    simplify_eq. f_equal. by apply IH.
Qed.

(** X22: the name multer gives an upload is made of the time and of the
    extension only: two uploads whose original names have the same extension
    get the same stored name exactly when they are made in the same
    millisecond. *)
Theorem filename_collision e1 e2 (original1 original2 : string) :
  path_extname e1 original1 = path_extname e2 original2 →
  filename e1 original1 = filename e2 original2 ↔
  upload_now e1 = upload_now e2.
Proof.
  intros Hext. unfold filename. rewrite Hext. split.
  - intros H%append_inj_r. by apply (inj pretty) in H.
  - by intros ->.
Qed.

(** ** The avatar label and who can post *)

Lemma join_index0_empty (s : string) :
  JS.join (JS.index0 <$> JS.split " " s) = "" ↔
  Forall (λ c, c = " "%char) (String.list_ascii_of_string s).
Proof.
  induction s as [|c s IH]; simpl.
  - split; [by constructor|done].
  - case_decide as Hc; simplify_eq.
    + rewrite fmap_cons. simpl. rewrite Forall_cons, <-IH.
      change ("" +:+ ?x) with x. tauto.
    + destruct (split_cons " " s) as (w & ws & Hs). rewrite Hs.
      rewrite fmap_cons. simpl. rewrite Forall_cons. split; [done|].
      by intros [? _].
Qed.

Lemma toUpperCase_empty (s : string) : JS.toUpperCase s = "" ↔ s = "".
Proof. by destruct s. Qed.

Lemma substring_empty (s : string) : JS.substring 0 2 s = "" ↔ s = "".
Proof. by destruct s as [|a [|b s]]. Qed.

Lemma toUpperCase_length (s : string) :
  String.length (JS.toUpperCase s) = String.length s.
Proof. induction s as [|c s IH]; simpl; [done|]. by rewrite IH. Qed.

Lemma upper_upper (c : ascii) : JS.upper (JS.upper c) = JS.upper c.
Proof.
  destruct c as [[] [] [] [] [] [] [] []]; reflexivity.
Qed.

(** X23: for a name of ASCII characters, the avatar label that Signup
    computes has at most two characters, upper-casing it again does not
    change it, and it is empty exactly when the name is made of spaces
    only. *)
Theorem avatar_shape (name : string) :
  ascii_only name →
  String.length (avatar name) ≤ 2 ∧
  JS.toUpperCase (avatar name) = avatar name ∧
  (avatar name = "" ↔
   Forall (λ c, c = " "%char) (String.list_ascii_of_string name)).
Proof.
  intros _. unfold avatar. split; [|split].
  - rewrite toUpperCase_length.
    by destruct (JS.join _) as [|a [|b [|c s]]]; simpl; lia.
  - generalize (JS.substring 0 2 (JS.join (JS.index0 <$> JS.split " " name))).
    intros s. induction s as [|c s IH]; simpl; [done|].
    by rewrite upper_upper, IH.
  - by rewrite toUpperCase_empty, substring_empty, join_index0_empty.
Qed.

(** X24: a signed-in user whose stored avatar label is empty cannot post:
    every CreateTweet of theirs is answered 400 (no content) or 500 (the
    tweet does not pass validation) and stores nothing. *)
Theorem createTweet_needs_avatar e s authorization content file userId user :
  signed_in e s authorization userId →
  users s !! userId = Some user →
  User.avatar user = "" →
  createTweet e s authorization content file
  = (s, if JS.falsy content
        then Response 400 (error "Content is required")
        else Response 500 (error "Server error")).
Proof.
  intros (user' & Hu' & Hauth)%authenticate_signed_in Hu Hav.
  simplify_eq. unfold createTweet. rewrite Hauth.
  destruct (JS.falsy content); [done|].
  unfold Tweet_save_new, Tweet_validate, required. simpl. rewrite Hav.
  by rewrite andb_false_r.
Qed.

(** * The further properties on the runs *)

Lemma demo_db2_reachable : reachable demo_db2.
Proof. by exists demo_trace2. Defined.

Lemma protected_401_witness :
  (∀ userId,
     ¬ signed_in (demo_env 0 0) demo_db (Some "Bearer eve") userId) ∧
  status (serve (demo_env 0 0) demo_db
            (ToggleLike (Some "Bearer eve") 10)).2 = 401 ∧
  (serve (demo_env 0 0) demo_db (ToggleLike (Some "Bearer eve") 10)).1
  = demo_db.
Proof.
  pose proof (protected_401 (demo_env 0 0) demo_db
                (ToggleLike (Some "Bearer eve") 10) (Some "Bearer eve")
                eq_refl) as [Hiff Hstate].
  assert (status (serve (demo_env 0 0) demo_db
                    (ToggleLike (Some "Bearer eve") 10)).2 = 401) as H401
    by reflexivity.
  split; [by apply Hiff|]. split; [done|]. by apply Hstate.
Defined.

Lemma serve_unchanged_witness :
  status (serve_io (Outcome false false false) (demo_env 0 0) demo_db
            (Follow (Some "Bearer bob") 99)).2 = 404 ∧
  (serve_io (Outcome false false false) (demo_env 0 0) demo_db
     (Follow (Some "Bearer bob") 99)).1 = demo_db ∧
  (serve_io all_ok (demo_env 0 0) demo_db (GetProfile "1")).1 = demo_db.
Proof.
  assert (status (serve_io (Outcome false false false) (demo_env 0 0)
                    demo_db (Follow (Some "Bearer bob") 99)).2 = 404) as H
    by (vm_compute; reflexivity).
  split; [done|]. split.
  - apply serve_unchanged. right. right. by left.
  - apply serve_unchanged. by do 3 right.
Defined.

Lemma bearer_second_word_witness :
  bearer (Some "Token abc") = Some "abc" ∧ bearer (Some "abc") = None.
Proof.
  assert (" "%char ∉ String.list_ascii_of_string "Token") as H1.
  { apply (bool_decide_unpack _). vm_compute. exact I. }
  assert (" "%char ∉ String.list_ascii_of_string "abc") as H2.
  { apply (bool_decide_unpack _). vm_compute. exact I. }
  destruct (bearer_second_word "Token" "abc" H1 H2) as (Ha & Hb & _).
  by split.
Defined.

Lemma username_unique_witness :
  reachable demo_db2 ∧ users demo_db2 !! 1%N = Some ann2 ∧ 1%N = 1%N.
Proof.
  assert (users demo_db2 !! 1%N = Some ann2) as H by demo_lookup.
  split; [exact demo_db2_reachable|]. split; [done|].
  exact (username_unique demo_db2 1 1 ann2 ann2 demo_db2_reachable H H
           eq_refl).
Defined.

Lemma login_answer_witness :
  reachable demo_db2 ∧ users demo_db2 !! 1%N = Some ann2 ∧
  status (login (demo_env 0 0) demo_db2 "ann" "pw").2 = 200 ∧
  status (login (demo_env 0 0) demo_db2 "ann" "pass").2 = 401 ∧
  login (demo_env 0 0) demo_db2 "eve" "pw"
  = (demo_db2, Response 401 (error "Invalid credentials")).
Proof.
  assert (users demo_db2 !! 1%N = Some ann2) as H by demo_lookup.
  split; [exact demo_db2_reachable|]. split; [done|].
  destruct (login_answer (demo_env 0 0) demo_db2 "ann" "pw"
              demo_db2_reachable) as [Hok _].
  destruct (login_answer (demo_env 0 0) demo_db2 "ann" "pass"
              demo_db2_reachable) as [Hbad _].
  destruct (login_answer (demo_env 0 0) demo_db2 "eve" "pw"
              demo_db2_reachable) as [_ Hno].
  split; [by rewrite (Hok 1%N ann2 H eq_refl)|].
  split; [by rewrite (Hbad 1%N ann2 H eq_refl)|].
  apply Hno. apply User_findOne_None. demo_lookup.
Defined.

Lemma signup_then_login_witness :
  users demo_db !! 4%N = None ∧
  status (login (demo_env 0 9000)
            (signup (demo_env 4 5000) demo_db (Some "zoe") (Some "pw")
               (Some "Zoe")).1 "zoe" "pw").2 = 200.
Proof.
  assert (users demo_db !! 4%N = None) as Hid by demo_lookup.
  assert (∀ i u, users demo_db !! i = Some u → User.username u ≠ "zoe")
    as Hfree.
  { apply User_findOne_None. demo_lookup. }
  split; [done|].
  destruct (signup_then_login (demo_env 4 5000) (demo_env 0 9000) demo_db
              "zoe" "pw" "Zoe" ltac:(done) ltac:(done) ltac:(done)
              ltac:(done) Hfree Hid eq_refl) as [_ Hlogin].
  by rewrite Hlogin.
Defined.

Lemma addComment_appends_witness :
  signed_in (demo_env 0 8000) demo_db2 (Some "Bearer ann") 1 ∧
  users demo_db2 !! 1%N = Some ann2 ∧
  tweets demo_db2 !! 10%N = Some hello2 ∧
  ∃ tweet',
    addComment (demo_env 0 8000) demo_db2 (Some "Bearer ann") 10
      (Some "thanks")
    = (State (users demo_db2) (<[10%N := tweet']> (tweets demo_db2)),
       Response 200 (Tweet_toJSON 10 tweet')) ∧
    Tweet.comments tweet'
    = [nice; Comment.mk 1 "Ann Lee" "ann" "AL" "thanks" 8000] ∧
    Tweet.likes tweet' = [2%N] ∧
    same_post hello2 tweet'.
Proof.
  assert (signed_in (demo_env 0 8000) demo_db2 (Some "Bearer ann") 1) as Hin
    by demo_signed_in "ann".
  assert (users demo_db2 !! 1%N = Some ann2) as Hu by demo_lookup.
  assert (tweets demo_db2 !! 10%N = Some hello2) as Hid by demo_lookup.
  do 3 (split; [done|]).
  apply (addComment_appends (demo_env 0 8000) demo_db2 (Some "Bearer ann")
           10 "thanks" 1 ann2 hello2 Hin Hu Hid).
  discriminate.
Defined.

Lemma addComment_rejected_witness :
  signed_in (demo_env 0 8000) demo_db2 (Some "Bearer ann") 1 ∧
  tweets demo_db2 !! 77%N = None ∧
  addComment (demo_env 0 8000) demo_db2 (Some "Bearer ann") 77 (Some "")
  = (demo_db2, Response 400 (error "Content is required")) ∧
  addComment (demo_env 0 8000) demo_db2 (Some "Bearer ann") 77 (Some "hi")
  = (demo_db2, Response 404 (error "Tweet not found")).
Proof.
  assert (signed_in (demo_env 0 8000) demo_db2 (Some "Bearer ann") 1) as Hin
    by demo_signed_in "ann".
  assert (tweets demo_db2 !! 77%N = None) as Hid by demo_lookup.
  do 2 (split; [done|]). split.
  - by apply (proj1 (addComment_rejected (demo_env 0 8000) demo_db2
                       (Some "Bearer ann") 77 (Some "") 1 Hin)).
  - by apply (proj2 (addComment_rejected (demo_env 0 8000) demo_db2
                       (Some "Bearer ann") 77 (Some "hi") 1 Hin)).
Defined.

Lemma tweet_never_edited_witness :
  tweets demo_db !! 10%N = Some hello ∧
  ∃ t', tweets demo_db2 !! 10%N = Some t' ∧ same_post hello t' ∧
        Tweet.comments hello `prefix_of` Tweet.comments t'.
Proof.
  assert (tweets demo_db !! 10%N = Some hello) as Hid by demo_lookup.
  split; [done|].
  assert (demo_db2 = run demo_db (drop 4 demo_trace2)) as ->
    by (vm_compute; reflexivity).
  exact (tweet_never_edited (drop 4 demo_trace2) demo_db 10 hello Hid).
Defined.

Lemma user_never_edited_witness :
  users demo_db !! 1%N = Some ann ∧
  ∃ u', users demo_db2 !! 1%N = Some u' ∧ same_account ann u'.
Proof.
  assert (users demo_db !! 1%N = Some ann) as Hid by demo_lookup.
  split; [done|].
  assert (demo_db2 = run demo_db (drop 4 demo_trace2)) as ->
    by (vm_compute; reflexivity).
  exact (user_never_edited (drop 4 demo_trace2) demo_db 1 ann Hid).
Defined.

Lemma following_well_formed_witness :
  reachable demo_db2 ∧ users demo_db2 !! 2%N = Some bob2 ∧
  NoDup (User.following bob2) ∧
  ∀ j, j ∈ User.following bob2 → is_Some (users demo_db2 !! j).
Proof.
  assert (users demo_db2 !! 2%N = Some bob2) as H by demo_lookup.
  split; [exact demo_db2_reachable|]. split; [done|].
  exact (following_well_formed demo_db2 2 bob2 demo_db2_reachable H).
Defined.

Lemma follow_frame_witness :
  signed_in (demo_env 0 0) demo_db (Some "Bearer bob") 2 ∧
  users demo_db !! 2%N = Some bob ∧ users demo_db !! 1%N = Some ann ∧
  (follow (demo_env 0 0) demo_db (Some "Bearer bob") 1).2
  = Response 200
      (JObject [("following", ids_toJSON [1%N]);
                ("followedUsername", JString "ann")]) ∧
  ∃ u, users (follow (demo_env 0 0) demo_db (Some "Bearer bob") 1).1 !! 1%N
       = Some u ∧ User.followers u = 1%Z.
Proof.
  assert (signed_in (demo_env 0 0) demo_db (Some "Bearer bob") 2) as Hin
    by demo_signed_in "bob".
  assert (users demo_db !! 2%N = Some bob) as Hme by demo_lookup.
  assert (users demo_db !! 1%N = Some ann) as Hid by demo_lookup.
  do 3 (split; [done|]).
  destruct (follow_frame (demo_env 0 0) demo_db (Some "Bearer bob") 2 1
              bob ann Hin Hme Hid)
    as (Hr & _ & _ & _ & (u & Hu & _ & Hf & _)).
  { apply not_elem_of_nil. }
  split; [exact Hr|]. by exists u.
Defined.

Lemma unfollow_rejected_witness :
  signed_in (demo_env 0 0) demo_db (Some "Bearer bob") 2 ∧
  users demo_db !! 2%N = Some bob ∧
  unfollow (demo_env 0 0) demo_db (Some "Bearer bob") 99
  = (demo_db, Response 404 (error "User not found")) ∧
  unfollow (demo_env 0 0) demo_db (Some "Bearer bob") 1
  = (demo_db, Response 400 (error "Not following this user")).
Proof.
  assert (signed_in (demo_env 0 0) demo_db (Some "Bearer bob") 2) as Hin
    by demo_signed_in "bob".
  assert (users demo_db !! 2%N = Some bob) as Hme by demo_lookup.
  do 2 (split; [done|]). split.
  - apply (proj1 (unfollow_rejected (demo_env 0 0) demo_db
                    (Some "Bearer bob") 2 99 bob Hin Hme)).
    demo_lookup.
  - apply (proj2 (unfollow_rejected (demo_env 0 0) demo_db
                    (Some "Bearer bob") 2 1 bob Hin Hme)).
    + vm_compute. eauto.
    + apply not_elem_of_nil.
Defined.

Lemma unfollow_frame_witness :
  reachable demo_db2 ∧
  signed_in (demo_env 0 0) demo_db2 (Some "Bearer bob") 2 ∧
  users demo_db2 !! 2%N = Some bob2 ∧ users demo_db2 !! 1%N = Some ann2 ∧
  status (unfollow (demo_env 0 0) demo_db2 (Some "Bearer bob") 1).2 = 200 ∧
  ∃ u, users (unfollow (demo_env 0 0) demo_db2 (Some "Bearer bob") 1).1
         !! 1%N = Some u ∧ User.followers u = 0%Z.
Proof.
  assert (signed_in (demo_env 0 0) demo_db2 (Some "Bearer bob") 2) as Hin
    by demo_signed_in "bob".
  assert (users demo_db2 !! 2%N = Some bob2) as Hme by demo_lookup.
  assert (users demo_db2 !! 1%N = Some ann2) as Hid by demo_lookup.
  split; [exact demo_db2_reachable|]. do 3 (split; [done|]).
  destruct (unfollow_frame (demo_env 0 0) demo_db2 (Some "Bearer bob") 2 1
              bob2 ann2 demo_db2_reachable Hin Hme Hid)
    as (Hr & _ & _ & _ & (u & Hu & _ & Hf)).
  { apply list_elem_of_here. }
  split; [exact Hr|]. by exists u.
Defined.

Lemma getFollowing_profiles_witness :
  reachable demo_db2 ∧ users demo_db2 !! 2%N = Some bob2 ∧
  users demo_db2 !! 99%N = None ∧
  getFollowing demo_db2 99
  = (demo_db2, Response 404 (error "User not found")) ∧
  ∃ l, getFollowing demo_db2 2 = (demo_db2, Response 200 (JArray l)) ∧
       length l = 1.
Proof.
  assert (users demo_db2 !! 2%N = Some bob2) as H by demo_lookup.
  assert (users demo_db2 !! 99%N = None) as Hno by demo_lookup.
  split; [exact demo_db2_reachable|]. do 2 (split; [done|]).
  destruct (getFollowing_profiles demo_db2 99 demo_db2_reachable)
    as [H404 _].
  destruct (getFollowing_profiles demo_db2 2 demo_db2_reachable)
    as [_ H200].
  split; [by apply H404|].
  destruct (H200 bob2 H) as (l & Hl & Hlen & _). by exists l.
Defined.

Lemma followers_counted_witness :
  Forall (λ x, saves_ok x.1.1) demo_trace2_io ∧
  demo_db2 = run_io empty_db demo_trace2_io ∧
  users demo_db2 !! 1%N = Some ann2 ∧
  User.followers ann2 = Z.of_nat (follower_count demo_db2 1).
Proof.
  assert (Forall (λ x, saves_ok x.1.1) demo_trace2_io) as Hl.
  { unfold demo_trace2_io. apply Forall_fmap, Forall_forall. by intros. }
  assert (demo_db2 = run_io empty_db demo_trace2_io) as Hs
    by (vm_compute; reflexivity).
  assert (users demo_db2 !! 1%N = Some ann2) as H by demo_lookup.
  do 3 (split; [done|]).
  exact (followers_counted demo_trace2_io demo_db2 1 ann2 Hl Hs H).
Defined.

Lemma follow_second_save_rejected_witness :
  signed_in (demo_env 0 0) demo_db (Some "Bearer bob") 2 ∧
  users demo_db !! 2%N = Some bob ∧ users demo_db !! 1%N = Some ann ∧
  let r := follow_io (Outcome true false true) (demo_env 0 0) demo_db
             (Some "Bearer bob") 1 in
  r.2 = Response 500 (error "Server error") ∧
  (∃ u, users r.1 !! 1%N = Some u ∧ User.followers u = 0%Z) ∧
  follower_count r.1 1 = S (follower_count demo_db 1).
Proof.
  assert (signed_in (demo_env 0 0) demo_db (Some "Bearer bob") 2) as Hin
    by demo_signed_in "bob".
  assert (users demo_db !! 2%N = Some bob) as Hme by demo_lookup.
  assert (users demo_db !! 1%N = Some ann) as Hid by demo_lookup.
  do 3 (split; [done|]).
  destruct (follow_second_save_rejected (Outcome true false true)
              (demo_env 0 0) demo_db (Some "Bearer bob") 2 1 bob ann
              Hin Hme Hid (not_elem_of_nil 1%N) eq_refl eq_refl)
    as (Hr & _ & _ & Hu & Hc).
  by split.
Defined.

Lemma toggleLike_flips_witness :
  reachable demo_db2 ∧
  signed_in (demo_env 0 0) demo_db2 (Some "Bearer ann") 1 ∧
  tweets demo_db2 !! 10%N = Some hello2 ∧
  ∃ tweet',
    tweets (toggleLike (demo_env 0 0) demo_db2 (Some "Bearer ann") 10).1
      !! 10%N = Some tweet' ∧
    (1%N ∈ Tweet.likes tweet' ↔ 1%N ∉ Tweet.likes hello2) ∧
    (∀ j, j ≠ 1%N → j ∈ Tweet.likes tweet' ↔ j ∈ Tweet.likes hello2).
Proof.
  assert (signed_in (demo_env 0 0) demo_db2 (Some "Bearer ann") 1) as Hin
    by demo_signed_in "ann".
  assert (tweets demo_db2 !! 10%N = Some hello2) as Hid by demo_lookup.
  split; [exact demo_db2_reachable|]. do 2 (split; [done|]).
  destruct (toggleLike_flips (demo_env 0 0) demo_db2 (Some "Bearer ann") 10
              1 hello2 demo_db2_reachable Hin Hid)
    as (t' & Ht' & H1 & H2 & _).
  exists t'. split; [exact Ht'|]. split; [exact H1|exact H2].
Defined.

Lemma tweet_refers_to_users_witness :
  reachable demo_db2 ∧ tweets demo_db2 !! 10%N = Some hello2 ∧
  tweet_current demo_db2 hello2 ∧
  (∀ j, j ∈ Tweet.likes hello2 → is_Some (users demo_db2 !! j)) ∧
  Forall (comment_current demo_db2) (Tweet.comments hello2).
Proof.
  assert (tweets demo_db2 !! 10%N = Some hello2) as Hid by demo_lookup.
  split; [exact demo_db2_reachable|]. split; [done|].
  exact (tweet_refers_to_users demo_db2 10 hello2 demo_db2_reachable Hid).
Defined.

Lemma toggleLike_like_unlike_witness :
  signed_in (demo_env 0 0) demo_db2 (Some "Bearer ann") 1 ∧
  tweets demo_db2 !! 10%N = Some hello2 ∧
  (toggleLike (demo_env 0 0)
     (toggleLike (demo_env 0 0) demo_db2 (Some "Bearer ann") 10).1
     (Some "Bearer ann") 10).1 = demo_db2.
Proof.
  assert (signed_in (demo_env 0 0) demo_db2 (Some "Bearer ann") 1) as Hin
    by demo_signed_in "ann".
  assert (tweets demo_db2 !! 10%N = Some hello2) as Hid by demo_lookup.
  do 2 (split; [done|]).
  destruct (toggleLike_like_unlike (demo_env 0 0) (demo_env 0 0) demo_db2
              (Some "Bearer ann") 10 1 hello2 Hin Hin Hid) as (_ & Hs & _).
  { apply (bool_decide_unpack _). vm_compute. exact I. }
  exact Hs.
Defined.

Lemma createTweet_listed_first_witness :
  signed_in (demo_env 11 9000) demo_db2 (Some "Bearer bob") 2 ∧
  users demo_db2 !! 2%N = Some bob2 ∧
  tweets demo_db2 !! 11%N = None ∧
  ∃ tweet l,
    tweets (createTweet (demo_env 11 9000) demo_db2 (Some "Bearer bob")
              (Some "hi") (Some "cat.png")).1 !! 11%N = Some tweet ∧
    listTweets (createTweet (demo_env 11 9000) demo_db2 (Some "Bearer bob")
                  (Some "hi") (Some "cat.png")).1
    = ((createTweet (demo_env 11 9000) demo_db2 (Some "Bearer bob")
          (Some "hi") (Some "cat.png")).1,
       Response 200 (tweets_toJSON ((11%N, tweet) :: l))).
Proof.
  assert (signed_in (demo_env 11 9000) demo_db2 (Some "Bearer bob") 2)
    as Hin by demo_signed_in "bob".
  assert (users demo_db2 !! 2%N = Some bob2) as Hu by demo_lookup.
  assert (tweets demo_db2 !! 11%N = None) as Hfresh by demo_lookup.
  assert (∀ i t, tweets demo_db2 !! i = Some t →
                 (Tweet.createdAt t < 9000)%Z) as Hlater.
  { intros i t Hi.
    assert (tweets demo_db2 = {[10%N := hello2]}) as Hmap
      by (vm_compute; reflexivity).
    rewrite Hmap in Hi. apply lookup_singleton_Some in Hi as [_ <-].
    done. }
  do 3 (split; [done|]).
  destruct (createTweet_listed_first (demo_env 11 9000) demo_db2
              (Some "Bearer bob") "hi" (Some "cat.png") 2 bob2 Hin Hu
              ltac:(done) ltac:(done) ltac:(done) Hfresh Hlater)
    as (_ & tweet & l & Ht & _ & _ & _ & Hlist).
  by exists tweet, l.
Defined.

Lemma filename_collision_witness :
  filename (demo_env 1 5000) "cat.png" = filename (demo_env 2 5000) "dog.png".
Proof.
  by apply (filename_collision (demo_env 1 5000) (demo_env 2 5000)
              "cat.png" "dog.png").
Defined.

Lemma avatar_shape_witness :
  ascii_only "   " ∧ avatar "   " = "".
Proof.
  assert (ascii_only "   ") as H.
  { unfold ascii_only. simpl. repeat constructor. }
  split; [done|].
  destruct (avatar_shape "   " H) as (_ & _ & Hempty).
  apply Hempty. simpl. by repeat constructor.
Defined.

Lemma createTweet_needs_avatar_witness :
  signed_in (demo_env 11 9000) demo_db2 (Some "Bearer sp") 3 ∧
  createTweet (demo_env 11 9000) demo_db2 (Some "Bearer sp") (Some "hi") None
  = (demo_db2, Response 500 (error "Server error")).
Proof.
  assert (signed_in (demo_env 11 9000) demo_db2 (Some "Bearer sp") 3) as Hin
    by demo_signed_in "sp".
  split; [done|].
  by apply (createTweet_needs_avatar (demo_env 11 9000) demo_db2
              (Some "Bearer sp") (Some "hi") None 3
              (User.mk "sp" "$2a$10$pw" " " "" "" [] 0) Hin);
    [demo_lookup|].
Defined.
